(** * va-plans: the benefit resolver and the cost accumulator

    A shallow embedding of [src/calculator/cost_engine.py] and
    [src/utils/service_type_mapper.py], and the properties of the
    cost engine established over it.

    Conventions of the embedding.
    - Python numbers (int and float currency amounts, quantities and
      rates) are embedded twice.  In [CostEngine] they are exact
      rationals [Q], with [Qeq] ([==]) as equality of amounts: this is
      the model the general theorems are proved over.  Apart from the
      lemmas marked as holding in exact arithmetic, those theorems are
      stated with comparisons, with the terms the code computes and
      with the monotonicity of its updates, none of which rounding to
      nearest changes.  In [Binary64] they are IEEE 754
      binary64 floats with Python's operations on them: this is the
      model the engine is run in on concrete inputs, and where the
      properties that hold in exact arithmetic only are refuted.
    - Python [str] values are [string]s of ASCII characters.
    - The usage profile is an insertion-ordered dict: an association list
      with distinct keys.  Dicts that are only looked up
      ([standard_costs], [benefit_rules]) are [gmap string _].
    - The two attributes the calculator mutates
      ([deductible_remaining], [deductible_paid]) form an explicit state
      threaded through every call. *)

From Stdlib Require Import Floats.
From Stdlib Require Import QArith Qminmax Lqa Permutation Ascii String.
From stdpp Require Import gmap strings list sorting.

Local Open Scope Q_scope.
#[local] Set Warnings "-inexact-float".

(** ** Python numbers *)

Module PyNum.

(** [x < y] as a test. *)
Definition Qltb (x y : Q) : bool := negb (Qle_bool y x).

(** [min(a, b)]: the first argument unless the second is smaller. *)
Definition py_min (a b : Q) : Q := if Qltb b a then b else a.

(** [round(x, 2)] in exact arithmetic: the nearest multiple of 1/100,
    ties to the even one.  (On a float Python returns the double nearest
    to that decimal: [Binary64.round2].) *)
Definition round2 (x : Q) : Q :=
  let n := (Qnum x * 100)%Z in
  let d := Z.pos (Qden x) in
  let q := (n / d)%Z in
  let r := (n mod d)%Z in
  let q' := if (2 * r <? d)%Z then q
            else if (d <? 2 * r)%Z then (q + 1)%Z
            else if Z.even q then q else (q + 1)%Z in
  q' # 100.

(** [sum(values)]: starts from 0 and adds from the left, here without
    rounding. *)
Definition py_sum (values : list Q) : Q := fold_left Qplus values 0.

End PyNum.
Import PyNum.

(** ** Python string methods *)

Module PyStr.

Definition is_upper (c : ascii) : bool :=
  let n := nat_of_ascii c in (65 <=? n)%nat && (n <=? 90)%nat.

Definition is_lower (c : ascii) : bool :=
  let n := nat_of_ascii c in (97 <=? n)%nat && (n <=? 122)%nat.

Definition is_digit (c : ascii) : bool :=
  let n := nat_of_ascii c in (48 <=? n)%nat && (n <=? 57)%nat.

(** [c.isalnum()] on ASCII. *)
Definition isalnum (c : ascii) : bool := is_upper c || is_lower c || is_digit c.

Definition lower_ascii (c : ascii) : ascii :=
  if is_upper c then ascii_of_nat (nat_of_ascii c + 32) else c.

(** [s.lower()] *)
Fixpoint lower (s : string) : string :=
  match s with
  | EmptyString => EmptyString
  | String c s' => String (lower_ascii c) (lower s')
  end.

(** [s.startswith(p)] *)
Definition startswith (s p : string) : bool := String.prefix p s.

(** [s.endswith(suffix)]: some tail of [s] is [suffix]. *)
Fixpoint endswith (s suffix : string) : bool :=
  String.eqb s suffix ||
  match s with
  | EmptyString => false
  | String _ s' => endswith s' suffix
  end.

(** [sub in s] *)
Fixpoint contains (s sub : string) : bool :=
  startswith s sub ||
  match s with
  | EmptyString => false
  | String _ s' => contains s' sub
  end.

(** [s.replace(old, new)] for a non-empty [old]: occurrences are found
    from the left and do not overlap.  [skip] counts the characters of
    the occurrence just replaced that are still to be dropped. *)
Fixpoint replace_from (old new : string) (skip : nat) (s : string) : string :=
  match s with
  | EmptyString => EmptyString
  | String c s' =>
      match skip with
      | S k => replace_from old new k s'
      | O =>
          if startswith s old
          then String.append new (replace_from old new (String.length old - 1) s')
          else String c (replace_from old new 0 s')
      end
  end.

Definition replace (s old new : string) : string := replace_from old new 0 s.

(** [s.rstrip('s')]: drop every trailing ['s']. *)
Fixpoint rstrip_s (s : string) : string :=
  match s with
  | EmptyString => EmptyString
  | String c s' =>
      match rstrip_s s' with
      | EmptyString => if Ascii.eqb c "s" then EmptyString else String c EmptyString
      | r => String c r
      end
  end.

(** [''.join(c for c in s if keep(c))] *)
Fixpoint filter_chars (keep : ascii -> bool) (s : string) : string :=
  match s with
  | EmptyString => EmptyString
  | String c s' =>
      if keep c then String c (filter_chars keep s') else filter_chars keep s'
  end.

End PyStr.
Import PyStr.

(** ** Insertion-ordered dicts with string keys *)

Module PyDict.

(** [d[k] = v]: overwrite in place, or append a new key at the end. *)
Fixpoint dict_set {A} (d : list (string * A)) (k : string) (v : A) : list (string * A) :=
  match d with
  | [] => [(k, v)]
  | (k', v') :: d' =>
      if String.eqb k' k then (k', v) :: d' else (k', v') :: dict_set d' k v
  end.

Definition keys {A} (d : list (string * A)) : list string := map fst d.
Definition values {A} (d : list (string * A)) : list A := map snd d.

End PyDict.
Import PyDict.

(** ** [src/utils/service_type_mapper.py] *)

Module ServiceTypeMapper.

Definition THERAPY_BENEFIT_MAPPING : gmap string (list string) :=
  <["speech_therapy_visits" :=
      ["speech_therapy"; "speech_language_therapy"; "therapy_services";
       "rehabilitation_services"; "habilitation_services"] ]>
  (<["occupational_therapy_visits" :=
      ["occupational_therapy"; "ot_therapy"; "therapy_services";
       "rehabilitation_services"; "habilitation_services"] ]> ∅).

Definition SERVICE_TYPE_MAPPING : gmap string (list string) :=
  <["primary_care_visits" :=
      ["primary_care"; "primary_care_visit"; "pcp_visit"; "office_visit_primary"] ]>
  (<["specialist_visits" :=
      ["specialist"; "specialist_visit"; "specialty_care"; "office_visit_specialist"] ]>
  (<["er_visits" :=
      ["emergency_room"; "er"; "emergency_services"; "emergency_care"] ]>
  (<["tier_1_generics_monthly" :=
      ["tier_1"; "tier_1_generic"; "generic_drug"; "tier1_rx"] ]>
  (<["tier_4_specialty_monthly" :=
      ["tier_4"; "tier_4_specialty"; "specialty_drug"; "tier4_rx"] ]>
  (<["inpatient_surgeries" :=
      ["inpatient_hospital"; "hospital_stay"; "inpatient_care"; "hospitalization"] ]> ∅))))).

(** [{**SERVICE_TYPE_MAPPING, **THERAPY_BENEFIT_MAPPING}]: the second
    dict wins on a shared key. *)
Definition ALL_SERVICE_MAPPINGS : gmap string (list string) :=
  THERAPY_BENEFIT_MAPPING ∪ SERVICE_TYPE_MAPPING.

Definition normalize_benefit_key (benefit_key : string) : string :=
  let normalized := replace (replace (lower benefit_key) " " "_") "-" "_" in
  filter_chars (fun c => isalnum c || Ascii.eqb c "_") normalized.

(** [{normalize_benefit_key(k): k for k in plan_benefits.keys()}]: the
    keys are visited in the dict's order and a later key overwrites an
    earlier one with the same normal form. *)
Definition normalized_benefits (plan_keys : list string) : gmap string string :=
  fold_left (fun m k => <[normalize_benefit_key k := k]> m) plan_keys ∅.

(** The [for alternative in ...] loop of [find_matching_benefit]. *)
Fixpoint first_alternative (nb : gmap string string) (alts : list string) : option string :=
  match alts with
  | [] => None
  | alternative :: rest =>
      match nb !! normalize_benefit_key alternative with
      | Some k => Some k
      | None => first_alternative nb rest
      end
  end.

(** Only the keys of [plan_benefits] are read. *)
Definition find_matching_benefit
    (usage_type : string) (plan_keys : list string) (use_fallback : bool) : option string :=
  let nb := normalized_benefits plan_keys in
  let normalized_usage := normalize_benefit_key usage_type in
  match nb !! normalized_usage with
  | Some k => Some k
  | None =>
      match (if use_fallback then ALL_SERVICE_MAPPINGS !! usage_type else None) with
      | Some alts => first_alternative nb alts
      | None => None
      end
  end.

Definition map_usage_to_standard_cost_key (usage_key : string) : string :=
  if endswith usage_key "_monthly" then
    let base := replace usage_key "_monthly" "" in
    let base := if endswith base "_generics"
                then replace base "_generics" "_generic" else base in
    if endswith base "_specialty" then String.append base "_cost"
    else String.append base "_cost"
  else if endswith usage_key "_visits" then
    String.append (replace usage_key "_visits" "") "_visit"
  else if endswith usage_key "_surgeries" then
    String.append (replace usage_key "_surgeries" "") "_surgery"
  else usage_key.

(** The loop of [get_therapy_benefit_for_usage] is the loop of
    [find_matching_benefit] over the therapy mapping. *)
Definition get_therapy_benefit_for_usage
    (usage_type : string) (plan_keys : list string) : option string :=
  match THERAPY_BENEFIT_MAPPING !! usage_type with
  | None => None
  | Some alts => first_alternative (normalized_benefits plan_keys) alts
  end.

(** One message of [validate_usage_cost_pairing]. *)
Definition missing_cost_message (usage_key cost_key : string) : string :=
  String.append "Missing standard cost for '"
    (String.append usage_key
       (String.append "': Expected '"
          (String.append cost_key "' in standard_costs"))).

(** [standard_costs] is only tested for membership; its values may be of
    any type. *)
Fixpoint validate_usage_cost_pairing {A}
    (usage_keys : list string) (standard_costs : gmap string A) : list string :=
  match usage_keys with
  | [] => []
  | usage_key :: rest =>
      let cost_key := map_usage_to_standard_cost_key usage_key in
      match standard_costs !! cost_key with
      | None => missing_cost_message usage_key cost_key
                :: validate_usage_cost_pairing rest standard_costs
      | Some _ => validate_usage_cost_pairing rest standard_costs
      end
  end.

End ServiceTypeMapper.
Import ServiceTypeMapper.

(** ** [src/calculator/cost_engine.py] *)

Module CostEngine.

(** The dict returned by [calculate_total_cost]. *)
Module CostResult.

Record t := Make {
  total_annual_cost : Q;
  premium_cost : Q;
  medical_drug_spend : Q;
  deductible_paid : Q;
  usage_breakdown : list (string * Q);
  variable_cost_raw : Q
}.

End CostResult.


(** A benefit rule is a dict read through [.get('type', 'copay')] and
    [.get('value', 0)]; the rule with neither key is the empty dict. *)
Record benefit_rule := BenefitRule {
  rule_type : option string;
  rule_value : option Q
}.

(** Truth value of a rule as [if not benefit_rule] tests it: [None] and
    the empty dict are false. *)
Definition rule_truthy (benefit_rule : option benefit_rule) : bool :=
  match benefit_rule with
  | None => false
  | Some r => bool_decide (is_Some (rule_type r)) || bool_decide (is_Some (rule_value r))
  end.

(** The [plan_data] dict of a calculator; [None] is an absent key, read
    through [.get] with its default.  In a row of the batch frame a
    required field that is NaN counts as absent as well
    ([has_required_fields]).  The cells hold numbers, and
    ['benefit_rules'] a dict when present: a row with anything else
    there (a NaN ['benefit_rules'] cell, say) is not a value of this
    type. *)
Record plan_data := PlanData {
  plan_name : option string;
  biweekly_premium : option Q;
  annual_deductible : option Q;
  oop_max : option Q;
  benefit_rules : option (gmap string benefit_rule)
}.

Record user_needs := UserNeeds {
  usage_profile : list (string * Q);
  standard_costs : gmap string Q
}.

(** The attributes of a [CostCalculator] that its methods assign. *)
Record calc_state := CalcState {
  deductible_remaining : Q;
  deductible_paid : Q
}.

(** [calculate_total_cost], "Reset deductible tracking". *)
Definition reset_state (plan : plan_data) : calc_state :=
  {| deductible_remaining := default 0 (annual_deductible plan);
     deductible_paid := 0 |}.

Definition calculate_premium_cost (plan : plan_data) : Q :=
  let biweekly_premium := default 0 (biweekly_premium plan) in
  biweekly_premium * 26.

(** [benefit_rule.get('type', 'copay').lower()] *)
Definition benefit_type (r : benefit_rule) : string :=
  lower (default "copay"%string (rule_type r)).

(** [benefit_rule.get('value', 0)] *)
Definition benefit_value (r : benefit_rule) : Q := default 0 (rule_value r).

(** Returns the cost of the service and the calculator's new state,
    computed without rounding. *)
Definition apply_benefit_rule
    (benefit_rule : option benefit_rule) (market_cost quantity : Q)
    (self : calc_state) : Q * calc_state :=
  match benefit_rule with
  | None => (0, self)
  | Some r =>
      if negb (rule_truthy benefit_rule) || Qle_bool quantity 0 || Qle_bool market_cost 0
      then (0, self)
      else
        let benefit_type := benefit_type r in
        let benefit_value := benefit_value r in
        if String.eqb benefit_type "copay" then
          let total_cost := benefit_value * quantity in
          (total_cost, self)
        else if String.eqb benefit_type "coinsurance" then
          let total_market_cost := market_cost * quantity in
          if Qltb 0 (deductible_remaining self) then
            let deductible_portion := py_min total_market_cost (deductible_remaining self) in
            let self' :=
              {| deductible_remaining := deductible_remaining self - deductible_portion;
                 deductible_paid := deductible_paid self + deductible_portion |} in
            let remaining_market_cost := total_market_cost - deductible_portion in
            let coinsurance_portion := remaining_market_cost * benefit_value in
            let total_cost := deductible_portion + coinsurance_portion in
            (total_cost, self')
          else
            let total_cost := total_market_cost * benefit_value in
            (total_cost, self)
        else (0, self)
  end.

Definition therapy_fallbacks : gmap string (list string) :=
  <["speech_therapy_visits" :=
      ["speech_therapy"; "therapy_services"; "rehabilitation_services";
       "habilitation_services"] ]>
  (<["occupational_therapy_visits" :=
      ["occupational_therapy"; "ot_therapy"; "therapy_services";
       "rehabilitation_services"; "habilitation_services"] ]>
  (<["physical_therapy_visits" :=
      ["physical_therapy"; "pt_therapy"; "therapy_services";
       "rehabilitation_services"; "habilitation_services"] ]> ∅)).

(** The [for fallback_key in ...] loop: the first fallback key the plan has. *)
Fixpoint first_fallback
    (benefit_rules : gmap string benefit_rule) (fallbacks : list string)
    : option benefit_rule :=
  match fallbacks with
  | [] => None
  | fallback_key :: rest =>
      match benefit_rules !! fallback_key with
      | Some r => Some r
      | None => first_fallback benefit_rules rest
      end
  end.

Definition _find_benefit_rule
    (usage_key : string) (benefit_rules : gmap string benefit_rule)
    : option benefit_rule :=
  match benefit_rules !! usage_key with
  | Some r => Some r
  | None =>
  let base_key := replace usage_key "_visits" "" in
  match benefit_rules !! base_key with
  | Some r => Some r
  | None =>
  match first_fallback benefit_rules (default [] (therapy_fallbacks !! usage_key)) with
  | Some r => Some r
  | None =>
  match (if contains usage_key "_generics" then benefit_rules !! "generic_drug" else None) with
  | Some r => Some r
  | None =>
  match (if contains usage_key "_specialty" then benefit_rules !! "specialty_drug" else None) with
  | Some r => Some r
  | None => None
  end end end end end.

(** The key under which the market price is looked up, and the quantity
    that is costed ([calculate_usage_cost], lines 168-174). *)
Definition cost_key_and_quantity (usage_key : string) (quantity : Q) : string * Q :=
  let cost_key := rstrip_s usage_key in
  if endswith cost_key "_monthly"
  then (replace cost_key "_monthly" "_cost", quantity * 12)
  else (cost_key, quantity).

(** One iteration of the loop of [calculate_usage_cost]: the calculator's
    state and the [usage_breakdown] dict before and after. *)
Definition usage_step
    (standard_costs : gmap string Q) (benefit_rules : gmap string benefit_rule)
    (acc : calc_state * list (string * Q)) (item : string * Q)
    : calc_state * list (string * Q) :=
  let '(self, usage_breakdown) := acc in
  let '(usage_key, quantity) := item in
  if Qle_bool quantity 0 then acc
  else
    let '(cost_key, quantity) := cost_key_and_quantity usage_key quantity in
    let market_cost := default 0 (standard_costs !! cost_key) in
    if Qle_bool market_cost 0 then acc
    else
      let benefit_rule := _find_benefit_rule usage_key benefit_rules in
      if negb (rule_truthy benefit_rule)
      then (self, dict_set usage_breakdown usage_key 0)
      else
        let '(cost, self') := apply_benefit_rule benefit_rule market_cost quantity self in
        (self', dict_set usage_breakdown usage_key cost).

(** The loop, from a given state and breakdown. *)
Definition usage_loop
    (standard_costs : gmap string Q) (benefit_rules : gmap string benefit_rule)
    (acc : calc_state * list (string * Q)) (items : list (string * Q))
    : calc_state * list (string * Q) :=
  fold_left (usage_step standard_costs benefit_rules) items acc.

Definition calculate_usage_cost
    (needs : user_needs) (plan : plan_data) (self : calc_state)
    : calc_state * list (string * Q) :=
  let benefit_rules := default ∅ (benefit_rules plan) in
  usage_loop (standard_costs needs) benefit_rules (self, []) (usage_profile needs).

(** [oop_max] defaults to [float('inf')], which nothing exceeds. *)
Definition apply_oop_cap (plan : plan_data) (variable_costs : Q) : Q :=
  match oop_max plan with
  | Some oop_max => if Qltb oop_max variable_costs then oop_max else variable_costs
  | None => variable_costs
  end.

(** The local variables of [calculate_total_cost] just before the result
    dict is built, together with the calculator's final state. *)
Record totals := Totals {
  t_premium_cost : Q;
  t_usage_breakdown : list (string * Q);
  t_variable_cost_raw : Q;
  t_variable_cost_capped : Q;
  t_total_annual_cost : Q;
  t_state : calc_state
}.

Definition calculate_totals (needs : user_needs) (plan : plan_data) : totals :=
  let self := reset_state plan in
  let premium_cost := calculate_premium_cost plan in
  let '(self, usage_breakdown) := calculate_usage_cost needs plan self in
  let variable_cost_raw := py_sum (values usage_breakdown) in
  let variable_cost_capped := apply_oop_cap plan variable_cost_raw in
  let total_annual_cost := premium_cost + variable_cost_capped in
  {| t_premium_cost := premium_cost;
     t_usage_breakdown := usage_breakdown;
     t_variable_cost_raw := variable_cost_raw;
     t_variable_cost_capped := variable_cost_capped;
     t_total_annual_cost := total_annual_cost;
     t_state := self |}.

Definition calculate_total_cost (needs : user_needs) (plan : plan_data) : CostResult.t :=
  let ts := calculate_totals needs plan in
  {| CostResult.total_annual_cost := round2 (t_total_annual_cost ts);
     CostResult.premium_cost := round2 (t_premium_cost ts);
     CostResult.medical_drug_spend := round2 (t_variable_cost_capped ts);
     CostResult.deductible_paid := round2 (deductible_paid (t_state ts));
     CostResult.usage_breakdown :=
       map (fun '(k, v) => (k, round2 v)) (t_usage_breakdown ts);
     CostResult.variable_cost_raw := round2 (t_variable_cost_raw ts) |}.

(** A row of the frame [calculate_all_plans] builds: [plan_data.copy()]
    updated with the fields of the cost result. *)
Record result_row := ResultRow {
  row_plan : plan_data;
  row_cost : CostResult.t
}.

(** [missing_fields] is empty: the four required columns are present. *)
Definition has_required_fields (plan : plan_data) : bool :=
  bool_decide (is_Some (plan_name plan)) &&
  bool_decide (is_Some (biweekly_premium plan)) &&
  bool_decide (is_Some (annual_deductible plan)) &&
  bool_decide (is_Some (oop_max plan)).

(** The [results] list after the loop over the rows of [plans_df].  On
    a row of type [plan_data] the calculation always returns, so the
    [except] clause of the loop is never entered; a row outside that
    type on which the calculation raises (a NaN ['benefit_rules'] cell
    when some service is costed) is dropped there and adds nothing to
    the list. *)
Definition plan_results (plans_df : list plan_data) (needs : user_needs) : list result_row :=
  omap (fun plan =>
          if has_required_fields plan
          then Some (ResultRow plan (calculate_total_cost needs plan))
          else None) plans_df.

(** [range(1, n + 1)] *)
Definition ranks (n : nat) : list Z := Z.of_nat <$> seq 1 n.

(** [sort_values] stands for pandas'
    [DataFrame.sort_values('total_annual_cost', ascending=True)], which is
    not code of this repository.  The result pairs each row with its
    [rank] column. *)
Definition calculate_all_plans
    (sort_values : list result_row -> list result_row)
    (plans_df : list plan_data) (needs : user_needs) : list (Z * result_row) :=
  let results := plan_results plans_df needs in
  match results with
  | [] => []
  | _ =>
      let result_df := sort_values results in
      zip (ranks (length result_df)) result_df
  end.

Definition row_total (row : result_row) : Q :=
  CostResult.total_annual_cost (row_cost row).

End CostEngine.
Import CostEngine.

(** ** The cost engine over binary64 floats *)

(** The methods of [CostCalculator] once more, with the arithmetic Python
    performs: amounts, quantities and rates are IEEE 754 binary64 numbers
    (an int input is the float equal to it), a decimal literal denotes
    the nearest double, and [*], [+], [-], [/] round to nearest, ties to
    even.  The strings, the dicts and the control flow are those of
    [CostEngine]. *)
Module Binary64.

#[local] Open Scope float_scope.

(** [min(a, b)]: the first argument unless the second is smaller. *)
Definition py_min (a b : float) : float := if PrimFloat.ltb b a then b else a.

(** [sum(values)]: starts from 0 and adds from the left. *)
Definition py_sum (values : list float) : float := fold_left PrimFloat.add values 0.

(** The rational number a finite float is. *)
Definition exact (x : float) : option Q :=
  match Prim2SF x with
  | S754_zero _ => Some 0%Q
  | S754_finite s m e =>
      Some ((if s then -1 else 1) * inject_Z (Z.pos m) * Qpower 2 e)%Q
  | _ => None
  end.

(** The float equal to an integer of magnitude below 2^53. *)
Definition of_Z (z : Z) : float :=
  match z with
  | Z0 => 0
  | Zpos _ => PrimFloat.of_uint63 (Uint63.of_Z z)
  | Zneg p => PrimFloat.opp (PrimFloat.of_uint63 (Uint63.of_Z (Zpos p)))
  end.

(** [round(x, 2)] for a finite [x] of magnitude below 2^53 / 100: the
    exact value of [x] is rounded to the nearest multiple of 1/100, ties
    to even, and the result is the double nearest to that decimal, which
    is the correctly rounded quotient of its number of hundredths by
    100; a result of zero keeps the sign of [x]. *)
Definition round2 (x : float) : float :=
  match exact x with
  | Some q =>
      let hundredths := Qnum (PyNum.round2 q) in
      if (hundredths =? 0)%Z then x * 0 else of_Z hundredths / 100
  | None => x
  end.

Module CostResult.

Record t := Make {
  total_annual_cost : float;
  premium_cost : float;
  medical_drug_spend : float;
  deductible_paid : float;
  usage_breakdown : list (string * float);
  variable_cost_raw : float
}.

End CostResult.

Record benefit_rule := BenefitRule {
  rule_type : option string;
  rule_value : option float
}.

Definition rule_truthy (benefit_rule : option benefit_rule) : bool :=
  match benefit_rule with
  | None => false
  | Some r => bool_decide (is_Some (rule_type r)) || bool_decide (is_Some (rule_value r))
  end.

Record plan_data := PlanData {
  plan_name : option string;
  biweekly_premium : option float;
  annual_deductible : option float;
  oop_max : option float;
  benefit_rules : option (gmap string benefit_rule)
}.

Record user_needs := UserNeeds {
  usage_profile : list (string * float);
  standard_costs : gmap string float
}.

Record calc_state := CalcState {
  deductible_remaining : float;
  deductible_paid : float
}.

Definition reset_state (plan : plan_data) : calc_state :=
  {| deductible_remaining := default 0 (annual_deductible plan);
     deductible_paid := 0 |}.

Definition calculate_premium_cost (plan : plan_data) : float :=
  let biweekly_premium := default 0 (biweekly_premium plan) in
  biweekly_premium * 26.

Definition benefit_type (r : benefit_rule) : string :=
  lower (default "copay"%string (rule_type r)).

Definition benefit_value (r : benefit_rule) : float := default 0 (rule_value r).

Definition apply_benefit_rule
    (benefit_rule : option benefit_rule) (market_cost quantity : float)
    (self : calc_state) : float * calc_state :=
  match benefit_rule with
  | None => (0, self)
  | Some r =>
      if negb (rule_truthy benefit_rule) || PrimFloat.leb quantity 0
         || PrimFloat.leb market_cost 0
      then (0, self)
      else
        let benefit_type := benefit_type r in
        let benefit_value := benefit_value r in
        if String.eqb benefit_type "copay" then
          let total_cost := benefit_value * quantity in
          (total_cost, self)
        else if String.eqb benefit_type "coinsurance" then
          let total_market_cost := market_cost * quantity in
          if PrimFloat.ltb 0 (deductible_remaining self) then
            let deductible_portion := py_min total_market_cost (deductible_remaining self) in
            let self' :=
              {| deductible_remaining := deductible_remaining self - deductible_portion;
                 deductible_paid := deductible_paid self + deductible_portion |} in
            let remaining_market_cost := total_market_cost - deductible_portion in
            let coinsurance_portion := remaining_market_cost * benefit_value in
            let total_cost := deductible_portion + coinsurance_portion in
            (total_cost, self')
          else
            let total_cost := total_market_cost * benefit_value in
            (total_cost, self)
        else (0, self)
  end.

Fixpoint first_fallback
    (benefit_rules : gmap string benefit_rule) (fallbacks : list string)
    : option benefit_rule :=
  match fallbacks with
  | [] => None
  | fallback_key :: rest =>
      match benefit_rules !! fallback_key with
      | Some r => Some r
      | None => first_fallback benefit_rules rest
      end
  end.

Definition _find_benefit_rule
    (usage_key : string) (benefit_rules : gmap string benefit_rule)
    : option benefit_rule :=
  match benefit_rules !! usage_key with
  | Some r => Some r
  | None =>
  let base_key := replace usage_key "_visits" "" in
  match benefit_rules !! base_key with
  | Some r => Some r
  | None =>
  match first_fallback benefit_rules (default [] (therapy_fallbacks !! usage_key)) with
  | Some r => Some r
  | None =>
  match (if contains usage_key "_generics" then benefit_rules !! "generic_drug"%string else None) with
  | Some r => Some r
  | None =>
  match (if contains usage_key "_specialty" then benefit_rules !! "specialty_drug"%string else None) with
  | Some r => Some r
  | None => None
  end end end end end.

Definition cost_key_and_quantity (usage_key : string) (quantity : float) : string * float :=
  let cost_key := rstrip_s usage_key in
  if endswith cost_key "_monthly"
  then (replace cost_key "_monthly" "_cost", quantity * 12)
  else (cost_key, quantity).

Definition usage_step
    (standard_costs : gmap string float) (benefit_rules : gmap string benefit_rule)
    (acc : calc_state * list (string * float)) (item : string * float)
    : calc_state * list (string * float) :=
  let '(self, usage_breakdown) := acc in
  let '(usage_key, quantity) := item in
  if PrimFloat.leb quantity 0 then acc
  else
    let '(cost_key, quantity) := cost_key_and_quantity usage_key quantity in
    let market_cost := default 0 (standard_costs !! cost_key) in
    if PrimFloat.leb market_cost 0 then acc
    else
      let benefit_rule := _find_benefit_rule usage_key benefit_rules in
      if negb (rule_truthy benefit_rule)
      then (self, dict_set usage_breakdown usage_key 0)
      else
        let '(cost, self') := apply_benefit_rule benefit_rule market_cost quantity self in
        (self', dict_set usage_breakdown usage_key cost).

Definition usage_loop
    (standard_costs : gmap string float) (benefit_rules : gmap string benefit_rule)
    (acc : calc_state * list (string * float)) (items : list (string * float))
    : calc_state * list (string * float) :=
  fold_left (usage_step standard_costs benefit_rules) items acc.

Definition calculate_usage_cost
    (needs : user_needs) (plan : plan_data) (self : calc_state)
    : calc_state * list (string * float) :=
  let benefit_rules := default ∅ (benefit_rules plan) in
  usage_loop (standard_costs needs) benefit_rules (self, []) (usage_profile needs).

Definition apply_oop_cap (plan : plan_data) (variable_costs : float) : float :=
  let oop_max := default PrimFloat.infinity (oop_max plan) in
  if PrimFloat.ltb oop_max variable_costs then oop_max else variable_costs.

Record totals := Totals {
  t_premium_cost : float;
  t_usage_breakdown : list (string * float);
  t_variable_cost_raw : float;
  t_variable_cost_capped : float;
  t_total_annual_cost : float;
  t_state : calc_state
}.

Definition calculate_totals (needs : user_needs) (plan : plan_data) : totals :=
  let self := reset_state plan in
  let premium_cost := calculate_premium_cost plan in
  let '(self, usage_breakdown) := calculate_usage_cost needs plan self in
  let variable_cost_raw := py_sum (values usage_breakdown) in
  let variable_cost_capped := apply_oop_cap plan variable_cost_raw in
  let total_annual_cost := premium_cost + variable_cost_capped in
  {| t_premium_cost := premium_cost;
     t_usage_breakdown := usage_breakdown;
     t_variable_cost_raw := variable_cost_raw;
     t_variable_cost_capped := variable_cost_capped;
     t_total_annual_cost := total_annual_cost;
     t_state := self |}.

Definition calculate_total_cost (needs : user_needs) (plan : plan_data) : CostResult.t :=
  let ts := calculate_totals needs plan in
  {| CostResult.total_annual_cost := round2 (t_total_annual_cost ts);
     CostResult.premium_cost := round2 (t_premium_cost ts);
     CostResult.medical_drug_spend := round2 (t_variable_cost_capped ts);
     CostResult.deductible_paid := round2 (deductible_paid (t_state ts));
     CostResult.usage_breakdown :=
       map (fun '(k, v) => (k, round2 v)) (t_usage_breakdown ts);
     CostResult.variable_cost_raw := round2 (t_variable_cost_raw ts) |}.

End Binary64.

(** ** Specification predicates *)

(** The deductible bookkeeping of a calculation whose plan has the annual
    deductible [annual], in exact arithmetic: what has been paid never
    exceeds it, what remains is the rest of it, and neither is negative. *)
Definition deductible_invariant (annual : Q) (st : calc_state) : Prop :=
  deductible_paid st <= annual /\
  deductible_remaining st == annual - deductible_paid st /\
  0 <= deductible_remaining st /\
  0 <= deductible_paid st.

(** The part of it that is kept when every update is rounded: what
    remains lies between 0 and the annual deductible, and what has been
    paid is not negative. *)
Definition deductible_bounds (annual : Q) (st : calc_state) : Prop :=
  0 <= deductible_remaining st /\
  deductible_remaining st <= annual /\
  0 <= deductible_paid st.

(** The last key of a plan's rule table, in the table's order, whose
    normal form is [n]. *)
Definition last_with_normal_form (n : string) (plan_keys : list string) : option string :=
  last (filter (fun k => normalize_benefit_key k = n) plan_keys).

(** A space, a hyphen and an underscore all separate the words of a key. *)
Definition is_separator (c : ascii) : bool :=
  Ascii.eqb c " " || Ascii.eqb c "-" || Ascii.eqb c "_".

(** Two characters that are the same up to case, or are both separators. *)
Definition same_key_char (c1 c2 : ascii) : bool :=
  Ascii.eqb (lower_ascii c1) (lower_ascii c2) || (is_separator c1 && is_separator c2).

(** Two keys that differ only in case, spaces or hyphens: they have the
    same length and, position by position, the same character up to
    case or a separator each. *)
Fixpoint differs_only_in_case_spaces_hyphens (k1 k2 : string) : bool :=
  match k1, k2 with
  | EmptyString, EmptyString => true
  | String c1 s1, String c2 s2 =>
      same_key_char c1 c2 && differs_only_in_case_spaces_hyphens s1 s2
  | _, _ => false
  end.

(** What [normalize_benefit_key] turns one character into, before the
    characters that are neither alphanumeric nor an underscore are
    dropped. *)
Definition normalize_char (c : ascii) : ascii :=
  let c := lower_ascii c in
  let c := if Ascii.eqb " " c then "_"%char else c in
  if Ascii.eqb "-" c then "_"%char else c.

(** What one service of the usage profile amounts to, read off the
    price table and the plan without looking at the deductible: it is
    skipped, or it has a cost fixed in advance (a copay, or 0 for a
    missing, empty or unknown rule), or it is a coinsurance charge on a
    market total [m] at rate [v]. *)
Inductive effect :=
  | Skip
  | Fixed (c : Q)
  | Coins (m v : Q).

Definition item_effect
    (standard_costs : gmap string Q) (benefit_rules : gmap string benefit_rule)
    (item : string * Q) : effect :=
  let '(usage_key, quantity) := item in
  if Qle_bool quantity 0 then Skip
  else
    let '(cost_key, quantity) := cost_key_and_quantity usage_key quantity in
    let market_cost := default 0 (standard_costs !! cost_key) in
    if Qle_bool market_cost 0 then Skip
    else
      match _find_benefit_rule usage_key benefit_rules with
      | None => Fixed 0
      | Some r =>
          if negb (rule_truthy (Some r)) then Fixed 0
          else if String.eqb (benefit_type r) "copay" then Fixed (benefit_value r * quantity)
          else if String.eqb (benefit_type r) "coinsurance"
               then Coins (market_cost * quantity) (benefit_value r)
          else Fixed 0
      end.

(** The coinsurance branch of [apply_benefit_rule] on a market total. *)
Definition coinsurance_charge (m v : Q) (st : calc_state) : Q * calc_state :=
  if Qltb 0 (deductible_remaining st) then
    let portion := py_min m (deductible_remaining st) in
    (portion + (m - portion) * v,
     {| deductible_remaining := deductible_remaining st - portion;
        deductible_paid := deductible_paid st + portion |})
  else (m * v, st).

(** The cost recorded for the service, if any, and the next state. *)
Definition run_effect (e : effect) (st : calc_state) : option Q * calc_state :=
  match e with
  | Skip => (None, st)
  | Fixed c => (Some c, st)
  | Coins m v => let '(c, st') := coinsurance_charge m v st in (Some c, st')
  end.

(** Sum of the recorded costs, and the final state. *)
Fixpoint effects_total (es : list effect) (st : calc_state) : Q * calc_state :=
  match es with
  | [] => (0, st)
  | e :: es' =>
      let '(c, st') := run_effect e st in
      let '(t, st'') := effects_total es' st' in
      (default 0 c + t, st'')
  end.

(** Sum of the costs fixed in advance, and of the coinsurance market totals. *)
Fixpoint fixed_sum (es : list effect) : Q :=
  match es with
  | [] => 0
  | Fixed c :: es' => c + fixed_sum es'
  | _ :: es' => fixed_sum es'
  end.

Fixpoint market_sum (es : list effect) : Q :=
  match es with
  | [] => 0
  | Coins m _ :: es' => m + market_sum es'
  | _ :: es' => market_sum es'
  end.

(** A coinsurance charge is on a positive total, at the rate [rate]. *)
Definition effect_ok (rate : Q) (e : effect) : Prop :=
  match e with
  | Coins m v => 0 < m /\ v == rate
  | _ => True
  end.

(** Rows in ascending order of [total_annual_cost]. *)
Definition row_le (a b : result_row) : Prop := row_total a <= row_total b.

#[local] Instance row_le_dec : RelDecision row_le.
Proof.
  intros a b. unfold row_le.
  destruct (Qle_bool (row_total a) (row_total b)) eqn:E.
  - left. by apply Qle_bool_iff.
  - right. intros H. apply Qle_bool_iff in H. congruence.
Defined.

(** A sort that orders rows by [total_annual_cost], to instantiate
    [sort_values] with; the code does not say in which order pandas
    leaves rows with equal totals. *)
Definition merge_sort_values (rows : list result_row) : list result_row :=
  merge_sort row_le rows.

(** The services the loop of [calculate_usage_cost] does not skip: a
    positive quantity and a positive market price. *)
Definition is_costed (standard_costs : gmap string Q) (item : string * Q) : bool :=
  let '(usage_key, quantity) := item in
  negb (Qle_bool quantity 0) &&
  negb (Qle_bool
          (default 0 (standard_costs !! fst (cost_key_and_quantity usage_key quantity))) 0).

(** The keys [_find_benefit_rule] tries, in the order it tries them. *)
Definition candidate_keys (usage_key : string) : list string :=
  [usage_key; replace usage_key "_visits" ""]
  ++ default [] (therapy_fallbacks !! usage_key)
  ++ (if contains usage_key "_generics" then ["generic_drug"%string] else [])
  ++ (if contains usage_key "_specialty" then ["specialty_drug"%string] else []).

(** The characters a normalized key is made of. *)
Definition is_key_char (c : ascii) : bool :=
  is_lower c || is_digit c || Ascii.eqb c "_".

Fixpoint all_chars (p : ascii -> bool) (s : string) : bool :=
  match s with
  | EmptyString => true
  | String c s' => p c && all_chars p s'
  end.

(** * Properties *)

(** ** Comparisons and [min] *)

Lemma Qltb_true (x y : Q) : Qltb x y = true <-> x < y.
Proof.
  unfold Qltb. rewrite negb_true_iff, <- not_true_iff_false, Qle_bool_iff.
  split; [apply Qnot_le_lt | apply Qlt_not_le].
Qed.

Lemma Qltb_false (x y : Q) : Qltb x y = false <-> y <= x.
Proof. unfold Qltb. rewrite negb_false_iff. apply Qle_bool_iff. Qed.

Lemma Qle_bool_false (x y : Q) : Qle_bool x y = false <-> y < x.
Proof.
  rewrite <- not_true_iff_false, Qle_bool_iff.
  split; [apply Qnot_le_lt | apply Qlt_not_le].
Qed.

Lemma py_min_cases (a b : Q) :
  (b < a /\ py_min a b = b) \/ (a <= b /\ py_min a b = a).
Proof.
  unfold py_min. destruct (Qltb b a) eqn:E.
  - left. split; [by apply Qltb_true | done].
  - right. split; [by apply Qltb_false | done].
Qed.

(** Case analysis on the boolean tests of the engine, turning each into
    the order fact it decides. *)
Ltac qtests :=
  repeat match goal with
  | H : Qle_bool _ _ = true |- _ => apply Qle_bool_iff in H
  | H : Qle_bool _ _ = false |- _ => apply Qle_bool_false in H
  | H : Qltb _ _ = true |- _ => apply Qltb_true in H
  | H : Qltb _ _ = false |- _ => apply Qltb_false in H
  end.

(** ** [apply_benefit_rule] *)

(** A rule that is the empty dict reads as a copay of 0. *)
Lemma rule_falsy_copay (r : benefit_rule) :
  rule_truthy (Some r) = false -> benefit_type r = "copay"%string /\ benefit_value r = 0.
Proof.
  unfold rule_truthy, benefit_type, benefit_value.
  destruct r as [[ty|] [v|]]; simpl; try discriminate; done.
Qed.

(** C2 (copay independence).  For a copay rule of amount [a] (a rule
    whose type reads as copay), a positive unit price and a positive
    quantity [q], [apply_benefit_rule] returns the cost [a * q] and leaves
    the calculator's state, hence [deductible_remaining] and
    [deductible_paid], exactly as it was, whatever that state is. *)
Theorem copay_independence (r : benefit_rule) (p q : Q) (st : calc_state) :
  benefit_type r = "copay"%string -> 0 < p -> 0 < q ->
  let '(cost, st') := apply_benefit_rule (Some r) p q st in
  cost == benefit_value r * q /\
  deductible_remaining st' = deductible_remaining st /\
  deductible_paid st' = deductible_paid st.
Proof.
  intros Hty Hp Hq. unfold apply_benefit_rule.
  destruct (rule_truthy (Some r)) eqn:Ht.
  - cbn [negb orb].
    rewrite (proj2 (Qle_bool_false q 0) Hq), (proj2 (Qle_bool_false p 0) Hp).
    rewrite Hty. simpl. split; [reflexivity | done].
  - simpl. split; [| done].
    destruct (rule_falsy_copay r Ht) as [_ ->]. ring.
Qed.

Lemma copay_independence_witness :
  let r := BenefitRule (Some "copay"%string) (Some 20) in
  let st := CalcState 1000 0 in
  let '(cost, st') := apply_benefit_rule (Some r) 200 5 st in
  cost == 20 * 5 /\
  deductible_remaining st' = 1000 /\ deductible_paid st' = 0.
Proof.
  apply (copay_independence (BenefitRule (Some "copay"%string) (Some 20)) 200 5
           (CalcState 1000 0)); [reflexivity | reflexivity | reflexivity].
Defined.

Lemma coinsurance_truthy (r : benefit_rule) :
  benefit_type r = "coinsurance"%string -> rule_truthy (Some r) = true.
Proof.
  intros Hty. destruct (rule_truthy (Some r)) eqn:Ht; [done |].
  destruct (rule_falsy_copay r Ht) as [Hc _]. rewrite Hc in Hty. discriminate.
Qed.

(** What a coinsurance rule does once the guard is passed: the two
    branches on [deductible_remaining > 0]. *)
Lemma apply_coinsurance (r : benefit_rule) (p q : Q) (st : calc_state) :
  benefit_type r = "coinsurance"%string -> 0 < p -> 0 < q ->
  apply_benefit_rule (Some r) p q st =
    if Qltb 0 (deductible_remaining st) then
      let portion := py_min (p * q) (deductible_remaining st) in
      (portion + (p * q - portion) * benefit_value r,
       {| deductible_remaining := deductible_remaining st - portion;
          deductible_paid := deductible_paid st + portion |})
    else (p * q * benefit_value r, st).
Proof.
  intros Hty Hp Hq. unfold apply_benefit_rule.
  rewrite (coinsurance_truthy r Hty). cbn [negb orb].
  rewrite (proj2 (Qle_bool_false q 0) Hq), (proj2 (Qle_bool_false p 0) Hp).
  rewrite Hty. reflexivity.
Qed.

(** C1 needs [deductible_remaining >= 0], as it is in every run
    on a plan whose annual deductible is not negative: on a negative
    value the rule takes the "deductible already met" branch, charges
    [market * rate] (40 here, not -100 + 300/5 = -40) and leaves
    [deductible_remaining] at -100 instead of 0. *)
Example coinsurance_split_negative_deductible :
  let r := BenefitRule (Some "coinsurance"%string) (Some (1 # 5)) in
  let st := CalcState (-100) 0 in
  let '(cost, st') := apply_benefit_rule (Some r) 200 1 st in
  0 < 200 /\ 0 < 1 /\ -100 < 200 * 1 /\
  cost == 40 /\ deductible_remaining st' == -100 /\
  ~ (cost == -100 + (200 * 1 - -100) * (1 # 5) /\ deductible_remaining st' == 0).
Proof.
  vm_compute. repeat split; try reflexivity. intros [H _]. discriminate H.
Qed.

(** C1 as stated fails in its last part: [deductible_paid] does not
    always grow by exactly what [deductible_remaining] lost.  On a plan
    with a deductible of 350, after a first coinsurance service of
    2 x 33.33 the state is [deductible_remaining] 283.34000000000003 and
    [deductible_paid] 66.66.  A second service of 1 x 49.95 fits in the
    deductible, costs its market total and leaves
    [deductible_remaining = d - market], as C1 says; but
    [deductible_paid] goes up by 49.950000000000003 while
    [deductible_remaining] goes down by 49.949999999999989, the two
    updates being rounded separately.  The differences are compared
    both as Python computes them and as exact rationals. *)
Lemma coinsurance_split_unequal_moves :
  let r := Binary64.BenefitRule (Some "coinsurance"%string) (Some 0.2%float) in
  let st0 := Binary64.CalcState 350 0 in
  let st := snd (Binary64.apply_benefit_rule (Some r) 33.33 2 st0) in
  let d := Binary64.deductible_remaining st in
  let market := (49.95 * 1)%float in
  let '(cost, st') := Binary64.apply_benefit_rule (Some r) 49.95 1 st in
  PrimFloat.ltb 0 49.95 = true /\ PrimFloat.ltb 0 1 = true /\
  PrimFloat.leb market d = true /\
  PrimFloat.eqb cost market = true /\
  PrimFloat.eqb (Binary64.deductible_remaining st') (d - market) = true /\
  PrimFloat.eqb
    (Binary64.deductible_paid st' - Binary64.deductible_paid st)
    (d - Binary64.deductible_remaining st') = false /\
  match Binary64.exact (Binary64.deductible_paid st'),
        Binary64.exact (Binary64.deductible_paid st),
        Binary64.exact d,
        Binary64.exact (Binary64.deductible_remaining st') with
  | Some paid', Some paid, Some rem, Some rem' => ~ paid' - paid == rem - rem'
  | _, _, _, _ => False
  end.
Proof.
  vm_compute. repeat split; discriminate.
Qed.

(** C1 (coinsurance split), for a deductible that is not negative.  For a
    coinsurance rule of rate [r], unit price [p > 0], quantity [q > 0]
    and [deductible_remaining = d >= 0], with [market = p * q]: if
    [market <= d] the cost is [market] and the new [deductible_remaining]
    is [d - market]; if [market > d] the cost is [d + (market - d) * r]
    and the new [deductible_remaining] is 0.  While some deductible
    remains, [deductible_remaining] is decreased and [deductible_paid]
    is increased by the same amount [min(market, d)], in two separate
    updates; when none remains the state is left as it is. *)
Theorem coinsurance_split (r : benefit_rule) (p q : Q) (st : calc_state) :
  benefit_type r = "coinsurance"%string -> 0 < p -> 0 < q ->
  0 <= deductible_remaining st ->
  let d := deductible_remaining st in
  let market := p * q in
  let '(cost, st') := apply_benefit_rule (Some r) p q st in
  (market <= d ->
     cost == market /\ deductible_remaining st' == d - market) /\
  (d < market ->
     cost == d + (market - d) * benefit_value r /\ deductible_remaining st' == 0) /\
  (0 < d ->
     deductible_remaining st' = d - py_min market d /\
     deductible_paid st' = deductible_paid st + py_min market d) /\
  (d == 0 -> st' = st).
Proof.
  intros Hty Hp Hq Hd. cbv zeta.
  rewrite (apply_coinsurance r p q st Hty Hp Hq).
  assert (Hm : 0 < p * q) by (apply Qmult_lt_0_compat; done).
  destruct (Qltb 0 (deductible_remaining st)) eqn:E; qtests; cbv zeta;
    cbn [deductible_remaining deductible_paid].
  - destruct (py_min_cases (p * q) (deductible_remaining st)) as [[Hlt Hmin] | [Hle Hmin]].
    + repeat split; try done; rewrite ?Hmin; intros; lra.
    + repeat split; try done; rewrite ?Hmin; intros; lra.
  - repeat split; try done; intros; try lra.
    assert (Heq : deductible_remaining st == 0) by lra.
    rewrite Heq. ring.
Qed.

Lemma coinsurance_split_witness :
  let r := BenefitRule (Some "coinsurance"%string) (Some (1 # 5)) in
  let st := CalcState 500 0 in
  let '(cost, st') := apply_benefit_rule (Some r) 200 10 st in
  (200 * 10 <= 500 ->
     cost == 200 * 10 /\ deductible_remaining st' == 500 - 200 * 10) /\
  (500 < 200 * 10 ->
     cost == 500 + (200 * 10 - 500) * (1 # 5) /\ deductible_remaining st' == 0) /\
  (0 < 500 ->
     deductible_remaining st' = 500 - py_min (200 * 10) 500 /\
     deductible_paid st' = 0 + py_min (200 * 10) 500) /\
  (500 == 0 -> st' = st).
Proof.
  apply (coinsurance_split (BenefitRule (Some "coinsurance"%string) (Some (1 # 5)))
           200 10 (CalcState 500 0));
    [reflexivity | reflexivity | reflexivity | discriminate].
Defined.

(** C8 as stated fails for a type string that differs from 'copay' only
    in case: the type is lowercased before it is compared, so 'COPAY'
    with value 20 is a copay and five services cost 100, not 0. *)
Lemma unknown_type_case_insensitive :
  let r := BenefitRule (Some "COPAY"%string) (Some 20) in
  rule_type r <> Some "copay"%string /\
  rule_type r <> Some "coinsurance"%string /\
  fst (apply_benefit_rule (Some r) 200 5 (CalcState 1000 0)) == 100 /\
  ~ fst (apply_benefit_rule (Some r) 200 5 (CalcState 1000 0)) == 0.
Proof.
  vm_compute. repeat split; try discriminate. 
Qed.

Lemma apply_unknown_type (r : benefit_rule) (p q : Q) (st : calc_state) :
  benefit_type r <> "copay"%string -> benefit_type r <> "coinsurance"%string ->
  apply_benefit_rule (Some r) p q st = (0, st).
Proof.
  intros Hc Hi. unfold apply_benefit_rule.
  destruct (negb (rule_truthy (Some r)) || Qle_bool q 0 || Qle_bool p 0); [done |].
  apply String.eqb_neq in Hc, Hi. rewrite Hc, Hi. done.
Qed.

(** C8 (unknown benefit type), with the type compared as the code
    compares it.  For a rule whose type string, lowercased, is neither
    'copay' nor 'coinsurance', [apply_benefit_rule] returns cost 0 and
    leaves the deductible state untouched, for every price and quantity;
    and when such a rule is the one resolved for a service, the loop of
    [calculate_usage_cost] goes on to the next service with the state
    unchanged and with that service either skipped or recorded at cost 0. *)
Theorem unknown_type_zero_cost
    (r : benefit_rule) (p q : Q) (st : calc_state)
    (costs : gmap string Q) (rules : gmap string benefit_rule)
    (usage_key : string) (bd : list (string * Q)) :
  benefit_type r <> "copay"%string -> benefit_type r <> "coinsurance"%string ->
  apply_benefit_rule (Some r) p q st = (0, st) /\
  (_find_benefit_rule usage_key rules = Some r ->
   usage_step costs rules (st, bd) (usage_key, q) = (st, bd) \/
   usage_step costs rules (st, bd) (usage_key, q) = (st, dict_set bd usage_key 0)).
Proof.
  intros Hc Hi. split; [by apply apply_unknown_type |].
  intros Hfind. unfold usage_step.
  destruct (Qle_bool q 0); [by left |].
  destruct (cost_key_and_quantity usage_key q) as [cost_key q'].
  destruct (Qle_bool (default 0 (costs !! cost_key)) 0); [by left |].
  right. rewrite Hfind.
  destruct (negb (rule_truthy (Some r))); [done |].
  by rewrite apply_unknown_type.
Qed.

Lemma unknown_type_zero_cost_witness :
  let r := BenefitRule (Some "percent"%string) (Some 20) in
  let rules : gmap string benefit_rule := <["er_visits"%string := r]> ∅ in
  let costs : gmap string Q := <["er_visit"%string := 1500]> ∅ in
  let st := CalcState 1000 0 in
  apply_benefit_rule (Some r) 1500 2 st = (0, st) /\
  (_find_benefit_rule "er_visits" rules = Some r ->
   usage_step costs rules (st, []) ("er_visits"%string, 2) = (st, []) \/
   usage_step costs rules (st, []) ("er_visits"%string, 2)
     = (st, dict_set [] "er_visits"%string 0)).
Proof.
  apply (unknown_type_zero_cost (BenefitRule (Some "percent"%string) (Some 20)));
    vm_compute; discriminate.
Defined.

(** ** The deductible state along a calculation *)

(** The only way [apply_benefit_rule] changes the state: a positive
    market total met by a positive remaining deductible. *)
Lemma apply_state_cases (rule : option benefit_rule) (p q : Q) (st : calc_state) :
  snd (apply_benefit_rule rule p q st) = st \/
  (0 < p /\ 0 < q /\ 0 < deductible_remaining st /\
   snd (apply_benefit_rule rule p q st) =
     {| deductible_remaining :=
          deductible_remaining st - py_min (p * q) (deductible_remaining st);
        deductible_paid :=
          deductible_paid st + py_min (p * q) (deductible_remaining st) |}).
Proof.
  unfold apply_benefit_rule. destruct rule as [r|]; [| by left].
  destruct (negb (rule_truthy (Some r))); [by left |]. cbn [orb].
  destruct (Qle_bool q 0) eqn:Eq; [by left |].
  destruct (Qle_bool p 0) eqn:Ep; [by left |]. cbn [orb].
  destruct (String.eqb (benefit_type r) "copay"); [by left |].
  destruct (String.eqb (benefit_type r) "coinsurance"); [| by left].
  destruct (Qltb 0 (deductible_remaining st)) eqn:Ed; [| by left].
  qtests. right. done.
Qed.

Lemma apply_preserves_invariant
    (annual : Q) (rule : option benefit_rule) (p q : Q) (st : calc_state) :
  deductible_invariant annual st ->
  deductible_invariant annual (snd (apply_benefit_rule rule p q st)).
Proof.
  intros (Hpaid & Hrem & Hr0 & Hp0).
  destruct (apply_state_cases rule p q st) as [-> | (Hp & Hq & Hd & ->)];
    [done |].
  assert (Hm : 0 < p * q) by (apply Qmult_lt_0_compat; done).
  unfold deductible_invariant. cbn [deductible_remaining deductible_paid].
  destruct (py_min_cases (p * q) (deductible_remaining st)) as [[Hlt ->] | [Hle ->]];
    repeat split; lra.
Qed.

Lemma usage_step_preserves_invariant
    (annual : Q) (costs : gmap string Q) (rules : gmap string benefit_rule)
    (acc : calc_state * list (string * Q)) (item : string * Q) :
  deductible_invariant annual (fst acc) ->
  deductible_invariant annual (fst (usage_step costs rules acc item)).
Proof.
  intros Hinv. destruct acc as [st bd], item as [k q]. unfold usage_step.
  destruct (Qle_bool q 0); [done |].
  destruct (cost_key_and_quantity k q) as [cost_key q'].
  destruct (Qle_bool (default 0 (costs !! cost_key)) 0); [done |].
  destruct (negb (rule_truthy (_find_benefit_rule k rules))); [done |].
  pose proof (apply_preserves_invariant annual (_find_benefit_rule k rules)
                (default 0 (costs !! cost_key)) q' st Hinv) as H.
  destruct (apply_benefit_rule _ _ _ st) as [cost st']. exact H.
Qed.

Lemma usage_loop_preserves_invariant
    (annual : Q) (costs : gmap string Q) (rules : gmap string benefit_rule)
    (items : list (string * Q)) (acc : calc_state * list (string * Q)) :
  deductible_invariant annual (fst acc) ->
  deductible_invariant annual (fst (usage_loop costs rules acc items)).
Proof.
  revert acc. induction items as [| item items IH]; intros acc Hinv; [done |].
  apply IH. by apply usage_step_preserves_invariant.
Qed.

Lemma apply_preserves_bounds
    (annual : Q) (rule : option benefit_rule) (p q : Q) (st : calc_state) :
  deductible_bounds annual st ->
  deductible_bounds annual (snd (apply_benefit_rule rule p q st)).
Proof.
  intros (Hr0 & Hra & Hp0).
  destruct (apply_state_cases rule p q st) as [-> | (Hp & Hq & Hd & ->)];
    [done |].
  assert (Hm : 0 < p * q) by (apply Qmult_lt_0_compat; done).
  unfold deductible_bounds. cbn [deductible_remaining deductible_paid].
  destruct (py_min_cases (p * q) (deductible_remaining st)) as [[Hlt ->] | [Hle ->]];
    repeat split; lra.
Qed.

Lemma usage_step_preserves_bounds
    (annual : Q) (costs : gmap string Q) (rules : gmap string benefit_rule)
    (acc : calc_state * list (string * Q)) (item : string * Q) :
  deductible_bounds annual (fst acc) ->
  deductible_bounds annual (fst (usage_step costs rules acc item)).
Proof.
  intros Hinv. destruct acc as [st bd], item as [k q]. unfold usage_step.
  destruct (Qle_bool q 0); [done |].
  destruct (cost_key_and_quantity k q) as [cost_key q'].
  destruct (Qle_bool (default 0 (costs !! cost_key)) 0); [done |].
  destruct (negb (rule_truthy (_find_benefit_rule k rules))); [done |].
  pose proof (apply_preserves_bounds annual (_find_benefit_rule k rules)
                (default 0 (costs !! cost_key)) q' st Hinv) as H.
  destruct (apply_benefit_rule _ _ _ st) as [cost st']. exact H.
Qed.

Lemma usage_loop_preserves_bounds
    (annual : Q) (costs : gmap string Q) (rules : gmap string benefit_rule)
    (items : list (string * Q)) (acc : calc_state * list (string * Q)) :
  deductible_bounds annual (fst acc) ->
  deductible_bounds annual (fst (usage_loop costs rules acc items)).
Proof.
  revert acc. induction items as [| item items IH]; intros acc Hinv; [done |].
  apply IH. by apply usage_step_preserves_bounds.
Qed.

(** C3 as stated fails: [deductible_paid] can end above the annual
    deductible, and [deductible_remaining] then differs from
    [annual_deductible - deductible_paid].  On a plan with a deductible
    of 350 and 20 percent coinsurance, the services 2 x 33.33, 1 x 49.95 and
    2 x 149.99 exhaust the deductible: [deductible_remaining] ends at 0,
    but the three portions 66.66, 49.95 and 233.39000000000004 add up to
    [deductible_paid = 350.00000000000006].  (The result dict reports
    the rounded 350.) *)
Lemma deductible_paid_exceeds_annual_deductible :
  let rule := Binary64.BenefitRule (Some "coinsurance"%string) (Some 0.2%float) in
  let needs :=
    Binary64.UserNeeds
      [("primary_care_visits"%string, 2%float); ("specialist_visits"%string, 1%float);
       ("er_visits"%string, 2%float)]
      (<["primary_care_visit"%string := 33.33%float]>
      (<["specialist_visit"%string := 49.95%float]>
      (<["er_visit"%string := 149.99%float]> ∅))) in
  let plan :=
    Binary64.PlanData (Some "Plan"%string) (Some 100%float) (Some 350%float)
      (Some 6000%float)
      (Some (<["primary_care_visits"%string := rule]>
            (<["specialist_visits"%string := rule]>
            (<["er_visits"%string := rule]> ∅)))) in
  let st := Binary64.t_state (Binary64.calculate_totals needs plan) in
  PrimFloat.leb 0 350 = true /\
  Binary64.deductible_remaining st = 0%float /\
  Binary64.deductible_paid st = 350.00000000000006%float /\
  PrimFloat.leb (Binary64.deductible_paid st) 350 = false /\
  PrimFloat.eqb (Binary64.deductible_remaining st)
    (350 - Binary64.deductible_paid st) = false /\
  match Binary64.exact (Binary64.deductible_paid st) with
  | Some paid => 350 < paid
  | None => False
  end /\
  Binary64.CostResult.deductible_paid (Binary64.calculate_total_cost needs plan)
    = 350%float.
Proof.
  vm_compute. repeat split.
Qed.

(** On that run the bounds below hold after each service:
    [deductible_remaining] goes 350, 283.34000000000003,
    233.39000000000004, 0. *)
Example deductible_bounds_on_that_run :
  let rule := Binary64.BenefitRule (Some "coinsurance"%string) (Some 0.2%float) in
  let costs : gmap string float :=
    <["primary_care_visit"%string := 33.33%float]>
    (<["specialist_visit"%string := 49.95%float]>
    (<["er_visit"%string := 149.99%float]> ∅)) in
  let rules : gmap string Binary64.benefit_rule :=
    <["primary_care_visits"%string := rule]>
    (<["specialist_visits"%string := rule]>
    (<["er_visits"%string := rule]> ∅)) in
  let profile :=
    [("primary_care_visits"%string, 2%float); ("specialist_visits"%string, 1%float);
     ("er_visits"%string, 2%float)] in
  let state_after n :=
    fst (Binary64.usage_loop costs rules (Binary64.CalcState 350 0, []) (take n profile)) in
  map (fun n => Binary64.deductible_remaining (state_after n)) [0; 1; 2; 3]%nat
    = [350; 283.34000000000003; 233.39000000000004; 0]%float /\
  forallb (fun n =>
             PrimFloat.leb 0 (Binary64.deductible_remaining (state_after n))
             && PrimFloat.leb (Binary64.deductible_remaining (state_after n)) 350
             && PrimFloat.leb 0 (Binary64.deductible_paid (state_after n)))
    [0; 1; 2; 3]%nat = true.
Proof. vm_compute. split; reflexivity. Qed.

(** C3 (deductible exhaustion invariant), as far as it survives the
    rounding of the updates.  In a [calculate_total_cost] run on a plan
    whose annual deductible is not negative, after every service of the
    usage profile has been processed, that is after each prefix
    [processed] of the profile, [deductible_remaining] lies between 0 and
    the annual deductible and [deductible_paid] is not negative. *)
Theorem deductible_bounds_invariant
    (needs : user_needs) (plan : plan_data) (processed rest : list (string * Q)) :
  0 <= default 0 (annual_deductible plan) ->
  usage_profile needs = processed ++ rest ->
  let annual := default 0 (annual_deductible plan) in
  let st := fst (usage_loop (standard_costs needs) (default ∅ (benefit_rules plan))
                   (reset_state plan, []) processed) in
  0 <= deductible_remaining st /\
  deductible_remaining st <= annual /\
  0 <= deductible_paid st.
Proof.
  intros Hd _. cbv zeta.
  apply (usage_loop_preserves_bounds (default 0 (annual_deductible plan))).
  unfold deductible_bounds, reset_state.
  cbn [fst deductible_remaining deductible_paid]. repeat split; lra.
Qed.

Lemma deductible_bounds_invariant_witness :
  let needs :=
    UserNeeds [("primary_care_visits"%string, 10); ("er_visits"%string, 1)]
      (<["primary_care_visit"%string := 200]> (<["er_visit"%string := 1500]> ∅)) in
  let plan :=
    PlanData (Some "Coinsurance Test Plan"%string) (Some 100) (Some 500) (Some 10000)
      (Some (<["primary_care_visits"%string :=
                 BenefitRule (Some "coinsurance"%string) (Some (1 # 5))]> ∅)) in
  let st := fst (usage_loop (standard_costs needs) (default ∅ (benefit_rules plan))
                   (reset_state plan, []) [("primary_care_visits"%string, 10)]) in
  0 <= deductible_remaining st /\
  deductible_remaining st <= 500 /\
  0 <= deductible_paid st.
Proof.
  apply (deductible_bounds_invariant
           (UserNeeds [("primary_care_visits"%string, 10); ("er_visits"%string, 1)]
              (<["primary_care_visit"%string := 200]> (<["er_visit"%string := 1500]> ∅)))
           (PlanData (Some "Coinsurance Test Plan"%string) (Some 100) (Some 500) (Some 10000)
              (Some (<["primary_care_visits"%string :=
                         BenefitRule (Some "coinsurance"%string) (Some (1 # 5))]> ∅)))
           [("primary_care_visits"%string, 10)] [("er_visits"%string, 1)]);
    [discriminate | reflexivity].
Defined.

(** In exact arithmetic the whole bookkeeping identity is an invariant
    of the loop: without rounding, [deductible_paid <= annual_deductible]
    and [deductible_remaining == annual_deductible - deductible_paid]
    after every prefix of the profile. *)
Lemma exact_deductible_invariant
    (needs : user_needs) (plan : plan_data) (processed : list (string * Q)) :
  0 <= default 0 (annual_deductible plan) ->
  deductible_invariant (default 0 (annual_deductible plan))
    (fst (usage_loop (standard_costs needs) (default ∅ (benefit_rules plan))
            (reset_state plan, []) processed)).
Proof.
  intros Hd.
  apply (usage_loop_preserves_invariant (default 0 (annual_deductible plan))).
  unfold deductible_invariant, reset_state.
  cbn [fst deductible_remaining deductible_paid]. repeat split; lra.
Qed.

(** The state [calculate_total_cost] reads [deductible_paid] from is the
    state after the whole profile. *)
Lemma calculate_totals_state (needs : user_needs) (plan : plan_data) :
  t_state (calculate_totals needs plan) =
  fst (usage_loop (standard_costs needs) (default ∅ (benefit_rules plan))
         (reset_state plan, []) (usage_profile needs)).
Proof.
  unfold calculate_totals, calculate_usage_cost.
  destruct (usage_loop _ _ _ _) as [st bd]. done.
Qed.

(** ** String methods *)

Lemma endswith_refl (s : string) : endswith s s = true.
Proof.
  destruct s as [| c s].
  - reflexivity.
  - change (String.eqb (String c s) (String c s) || endswith s (String c s) = true).
    by rewrite String.eqb_refl.
Qed.

Lemma endswith_cons (c : ascii) (s suffix : string) :
  endswith s suffix = true -> endswith (String c s) suffix = true.
Proof.
  intros H. change (endswith (String c s) suffix)
    with (String.eqb (String c s) suffix || endswith s suffix).
  rewrite H. apply orb_true_r.
Qed.

Lemma endswith_app (t suffix : string) : endswith (String.append t suffix) suffix = true.
Proof.
  induction t as [| c t IH].
  - apply endswith_refl.
  - apply (endswith_cons c), IH.
Qed.

Lemma endswith_inv (s suffix : string) :
  endswith s suffix = true ->
  s = suffix \/ exists c s', s = String c s' /\ endswith s' suffix = true.
Proof.
  destruct s as [| c s]; intros H.
  - change (String.eqb EmptyString suffix || false = true) in H.
    rewrite orb_false_r in H. left. by apply String.eqb_eq.
  - change (String.eqb (String c s) suffix || endswith s suffix = true) in H.
    apply orb_true_iff in H as [H | H].
    + left. by apply String.eqb_eq.
    + right. by exists c, s.
Qed.

Lemma endswith_spec (s suffix : string) :
  endswith s suffix = true <-> exists t, s = String.append t suffix.
Proof.
  split.
  - induction s as [| c s IH]; intros H;
      destruct (endswith_inv _ _ H) as [-> | (c' & s' & Hs & H')];
      try (by exists EmptyString); try discriminate.
    injection Hs as -> ->. destruct (IH H') as [t ->]. by exists (String c' t).
  - intros [t ->]. apply endswith_app.
Qed.

(** Two suffixes of one string: one is a suffix of the other. *)
Lemma endswith_comparable (s a b : string) :
  endswith s a = true -> endswith s b = true ->
  endswith a b = true \/ endswith b a = true.
Proof.
  induction s as [| c s IH]; intros Ha Hb;
    destruct (endswith_inv _ _ Ha) as [<- | (ca & sa & Hsa & Ha')];
    destruct (endswith_inv _ _ Hb) as [<- | (cb & sb & Hsb & Hb')];
    try discriminate; try (by left); try (by right).
  injection Hsa as <- <-. injection Hsb as <- <-. by apply IH.
Qed.

Lemma endswith_exclusive (s a b : string) :
  endswith a b = false -> endswith b a = false ->
  endswith s a = true -> endswith s b = false.
Proof.
  intros Hab Hba Ha. destruct (endswith s b) eqn:Hb; [| done].
  destruct (endswith_comparable s a b Ha Hb) as [H | H]; congruence.
Qed.

(** [rstrip('s')] leaves alone a string whose non-empty tail it leaves alone. *)
Lemma rstrip_s_app (t u : string) :
  u <> EmptyString -> rstrip_s u = u ->
  rstrip_s (String.append t u) = String.append t u.
Proof.
  intros Hne Hu. induction t as [| c t IH].
  - exact Hu.
  - change (String.append (String c t) u) with (String c (String.append t u)).
    cbn [rstrip_s]. rewrite IH.
    destruct (String.append t u) eqn:E; [| done].
    destruct t; [| discriminate]. by destruct Hne.
Qed.

Lemma rstrip_s_monthly (usage_key : string) :
  endswith usage_key "_monthly" = true -> rstrip_s usage_key = usage_key.
Proof.
  intros H. apply endswith_spec in H as [t ->].
  apply rstrip_s_app; [discriminate | reflexivity].
Qed.

Lemma string_length_append (s t : string) :
  String.length (String.append s t) = (String.length s + String.length t)%nat.
Proof.
  induction s as [| c s IH]; [done |].
  change (S (String.length (String.append s t)) = S (String.length s + String.length t)).
  by rewrite IH.
Qed.

Lemma endswith_length (s suffix : string) :
  endswith s suffix = true -> (String.length suffix <= String.length s)%nat.
Proof.
  intros H. apply endswith_spec in H as [t ->]. rewrite string_length_append. lia.
Qed.

Lemma endswith_app_l (t s suffix : string) :
  endswith s suffix = true -> endswith (String.append t s) suffix = true.
Proof.
  intros H. induction t as [| c t IH]; [done |]. apply (endswith_cons c), IH.
Qed.

Lemma startswith_inv (s p : string) :
  startswith s p = true -> exists rest, s = String.append p rest.
Proof.
  unfold startswith. revert s. induction p as [| a p IH]; intros s H.
  - by exists s.
  - destruct s as [| c s]; [discriminate |]. cbn in H.
    destruct (ascii_dec a c) as [-> |]; [| discriminate].
    destruct (IH s H) as [rest ->]. by exists rest.
Qed.

Lemma startswith_refl (s : string) : startswith s s = true.
Proof.
  unfold startswith. induction s as [| c s IH]; [done |]. cbn.
  destruct (ascii_dec c c); [done | congruence].
Qed.

Lemma monthly_no_overlap (t rest : string) :
  String.append "_monthly" rest = String.append t "_monthly" ->
  t = EmptyString \/ (8 <= String.length rest)%nat.
Proof.
  intros H.
  destruct t as [| c0 t]; [by left |]. right.
  do 7 (destruct t as [| ? t]; [discriminate H |]).
  injection H as _ _ _ _ _ _ _ _ H.
  change (rest = String.append t "_monthly") in H. subst rest.
  rewrite string_length_append. change (String.length "_monthly") with 8%nat. lia.
Qed.

(** Replacing '_monthly' by '_cost' in a string that ends in '_monthly'
    gives a string that ends in '_cost': the last occurrence is replaced,
    since '_monthly' cannot overlap an earlier occurrence of itself. *)
Lemma replace_from_monthly (s : string) (skip : nat) :
  endswith s "_monthly" = true -> (skip + 8 <= String.length s)%nat ->
  endswith (replace_from "_monthly" "_cost" skip s) "_cost" = true.
Proof.
  revert skip. induction s as [| c s IH]; intros skip He Hlen; [done |].
  destruct (endswith_inv _ _ He) as [Heq | (c' & s' & [= <- <-] & He')].
  - rewrite Heq in *. destruct skip; [done | cbn in Hlen; lia].
  - pose proof (endswith_length _ _ He') as Hl'. cbn in Hl'.
    cbn [replace_from]. destruct skip as [| k].
    + destruct (startswith (String c s) "_monthly") eqn:Es.
      * apply endswith_app_l.
        apply startswith_inv in Es as [rest Hs].
        apply endswith_spec in He as [t Ht]. rewrite Hs in Ht.
        destruct (monthly_no_overlap t rest Ht) as [-> | Hr].
        { change (String.append "_monthly" rest = "_monthly"%string) in Ht.
          rewrite Ht in Hs. injection Hs as -> ->. simpl in Hl'. lia. }
        change (String c s = String "_" (String.append "monthly" rest)) in Hs.
        injection Hs as _ ->. apply IH; [done |].
        rewrite string_length_append.
        change (String.length "_monthly") with 8%nat.
        change (String.length "monthly") with 7%nat. lia.
      * apply (endswith_cons c). apply IH; [done | lia].
    + apply IH; [done |]. cbn in Hlen. lia.
Qed.

(** ** Monthly services *)

Lemma cost_key_monthly (usage_key : string) (quantity : Q) :
  endswith usage_key "_monthly" = true ->
  cost_key_and_quantity usage_key quantity =
    (replace usage_key "_monthly" "_cost", quantity * 12).
Proof.
  intros H. unfold cost_key_and_quantity.
  rewrite (rstrip_s_monthly usage_key H), H. done.
Qed.

(** C10 (monthly quantities are annualized).  For a usage key ending in
    '_monthly' with quantity [q > 0], a positive market price under the
    key the engine looks up, and a benefit rule resolved for the key, the
    rule is applied to the quantity [q * 12]: the cost recorded for the
    service, and the state the calculator is left in, are those
    [apply_benefit_rule] returns for [q * 12] occurrences. *)
Theorem monthly_quantity_annualized
    (costs : gmap string Q) (rules : gmap string benefit_rule)
    (st : calc_state) (bd : list (string * Q))
    (usage_key : string) (q : Q) (r : benefit_rule) :
  endswith usage_key "_monthly" = true -> 0 < q ->
  0 < default 0 (costs !! fst (cost_key_and_quantity usage_key q)) ->
  _find_benefit_rule usage_key rules = Some r ->
  let price := default 0 (costs !! fst (cost_key_and_quantity usage_key q)) in
  snd (cost_key_and_quantity usage_key q) = q * 12 /\
  usage_step costs rules (st, bd) (usage_key, q) =
    (snd (apply_benefit_rule (Some r) price (q * 12) st),
     dict_set bd usage_key (fst (apply_benefit_rule (Some r) price (q * 12) st))).
Proof.
  intros Hm Hq Hp Hfind. cbv zeta. unfold usage_step.
  rewrite (proj2 (Qle_bool_false q 0) Hq).
  rewrite (cost_key_monthly usage_key q Hm) in *. cbn [fst snd] in *.
  split; [done |].
  rewrite (proj2 (Qle_bool_false _ 0) Hp), Hfind.
  destruct (rule_truthy (Some r)) eqn:Ht; cbn [negb].
  - destruct (apply_benefit_rule _ _ _ st) as [cost st']. done.
  - unfold apply_benefit_rule. rewrite Ht. done.
Qed.

Lemma monthly_quantity_annualized_witness :
  let costs : gmap string Q := <["tier_1_generics_cost"%string := 15]> ∅ in
  let r := BenefitRule (Some "copay"%string) (Some 10) in
  let rules : gmap string benefit_rule := <["generic_drug"%string := r]> ∅ in
  let st := CalcState 500 0 in
  let price :=
    default 0 (costs !! fst (cost_key_and_quantity "tier_1_generics_monthly" 2)) in
  snd (cost_key_and_quantity "tier_1_generics_monthly" 2) = 2 * 12 /\
  usage_step costs rules (st, []) ("tier_1_generics_monthly"%string, 2) =
    (snd (apply_benefit_rule (Some r) price (2 * 12) st),
     dict_set [] "tier_1_generics_monthly"%string
       (fst (apply_benefit_rule (Some r) price (2 * 12) st))).
Proof.
  apply (monthly_quantity_annualized
           (<["tier_1_generics_cost"%string := 15]> ∅)
           (<["generic_drug"%string := BenefitRule (Some "copay"%string) (Some 10)]> ∅)
           (CalcState 500 0) [] "tier_1_generics_monthly" 2
           (BenefitRule (Some "copay"%string) (Some 10)));
    vm_compute; reflexivity.
Defined.

(** With a copay of 10 a month's prescription counted twice costs
    10 * 24 = 240 for the year, not 10 * 2. *)
Example monthly_copay_example :
  snd (usage_step (<["tier_1_generics_cost"%string := 15]> ∅)
         (<["generic_drug"%string := BenefitRule (Some "copay"%string) (Some 10)]> ∅)
         (CalcState 500 0, []) ("tier_1_generics_monthly"%string, 2))
  = [("tier_1_generics_monthly"%string, 10 * (2 * 12))].
Proof. vm_compute. reflexivity. Qed.

(** ** Cost keys *)

(** The mapper sends every key ending in '_monthly' to a key ending in
    '_cost'. *)
Lemma mapper_monthly_cost (usage_key : string) :
  endswith usage_key "_monthly" = true ->
  endswith (map_usage_to_standard_cost_key usage_key) "_cost" = true.
Proof.
  intros H. unfold map_usage_to_standard_cost_key. rewrite H.
  destruct (endswith _ "_specialty"); apply endswith_app.
Qed.

(** The mapper sends every key ending in '_surgeries' to a key ending in
    '_surgery'. *)
Lemma mapper_surgeries_surgery (usage_key : string) :
  endswith usage_key "_surgeries" = true ->
  endswith (map_usage_to_standard_cost_key usage_key) "_surgery" = true.
Proof.
  intros H. unfold map_usage_to_standard_cost_key.
  rewrite (endswith_exclusive usage_key "_surgeries" "_monthly") by done.
  rewrite (endswith_exclusive usage_key "_surgeries" "_visits") by done.
  rewrite H. apply endswith_app.
Qed.

(** The engine, too, sends every key ending in '_monthly' to a key
    ending in '_cost'. *)
Lemma engine_monthly_cost (usage_key : string) (q : Q) :
  endswith usage_key "_monthly" = true ->
  endswith (fst (cost_key_and_quantity usage_key q)) "_cost" = true.
Proof.
  intros H. rewrite (cost_key_monthly usage_key q H). cbn [fst].
  unfold replace. apply replace_from_monthly; [done |].
  apply endswith_length in H. cbn in H. lia.
Qed.

(** C7, the engine at the claim's own examples.  [calculate_usage_cost]
    looks the market price up under [usage_key.rstrip('s')] with
    '_monthly' replaced by '_cost': for 'tier_1_generics_monthly' that is
    'tier_1_generics_cost', and for 'inpatient_surgeries' it is
    'inpatient_surgerie', which does not end in '_surgery'; the mapper
    [map_usage_to_standard_cost_key] gives 'tier_1_generic_cost' and
    'inpatient_surgery'.  With prices stored under the mapper's keys the
    engine finds no price and drops both services from the breakdown. *)
Theorem engine_cost_key_mismatch :
  fst (cost_key_and_quantity "tier_1_generics_monthly" 1) = "tier_1_generics_cost"%string /\
  map_usage_to_standard_cost_key "tier_1_generics_monthly" = "tier_1_generic_cost"%string /\
  fst (cost_key_and_quantity "inpatient_surgeries" 1) = "inpatient_surgerie"%string /\
  endswith (fst (cost_key_and_quantity "inpatient_surgeries" 1)) "_surgery" = false /\
  map_usage_to_standard_cost_key "inpatient_surgeries" = "inpatient_surgery"%string /\
  (let costs : gmap string Q :=
     <["tier_1_generic_cost"%string := 15]> (<["inpatient_surgery"%string := 20000]> ∅) in
   let rules : gmap string benefit_rule :=
     <["generic_drug"%string := BenefitRule (Some "copay"%string) (Some 10)]>
     (<["inpatient_surgeries"%string := BenefitRule (Some "copay"%string) (Some 500)]> ∅) in
   usage_loop costs rules (CalcState 0 0, [])
     [("tier_1_generics_monthly"%string, 1); ("inpatient_surgeries"%string, 1)]
   = (CalcState 0 0, [])).
Proof.
  vm_compute. repeat split.
Qed.

(** ** The result of [calculate_total_cost] *)

Lemma py_min_Qmin (a b : Q) : py_min a b == Qmin a b.
Proof.
  destruct (py_min_cases a b) as [[H ->] | [H ->]].
  - symmetry. apply Q.min_r. lra.
  - symmetry. by apply Q.min_l.
Qed.

(** C4 as stated fails on the returned dict, whose fields are rounded one
    by one.  Two services at 25 percent coinsurance of a 24.50 price cost
    6.125 each: the breakdown shows 6.12 and 6.12 while
    [variable_cost_raw] is 12.25; and with a premium of 100.0625 per
    period, [premium_cost] is 2601.62 and [medical_drug_spend] 12.25
    while [total_annual_cost] is 2613.88. *)
Lemma rounded_result_breaks_identities :
  let needs :=
    UserNeeds [("primary_care_visits"%string, 1); ("specialist_visits"%string, 1)]
      (<["primary_care_visit"%string := 49 # 2]>
         (<["specialist_visit"%string := 49 # 2]> ∅)) in
  let plan :=
    PlanData (Some "Plan"%string) (Some (1601 # 16)) (Some 0) (Some 5000)
      (Some (<["primary_care_visits"%string :=
                 BenefitRule (Some "coinsurance"%string) (Some (1 # 4))]>
            (<["specialist_visits"%string :=
                 BenefitRule (Some "coinsurance"%string) (Some (1 # 4))]> ∅))) in
  let res := calculate_total_cost needs plan in
  CostResult.usage_breakdown res
    = [("primary_care_visits"%string, 612 # 100); ("specialist_visits"%string, 612 # 100)] /\
  CostResult.variable_cost_raw res = 1225 # 100 /\
  CostResult.premium_cost res = 260162 # 100 /\
  CostResult.medical_drug_spend res = 1225 # 100 /\
  CostResult.total_annual_cost res = 261388 # 100 /\
  ~ CostResult.variable_cost_raw res == py_sum (values (CostResult.usage_breakdown res)) /\
  ~ CostResult.total_annual_cost res
      == CostResult.premium_cost res + CostResult.medical_drug_spend res.
Proof.
  vm_compute. repeat split; discriminate.
Qed.

(** C4 (result identities), for the amounts before rounding.  The
    unrounded amounts of [calculate_total_cost] satisfy
    [total_annual_cost == premium_cost + medical_drug_spend],
    [medical_drug_spend == min(variable_cost_raw, oop_max)] (the raw
    amount itself when the plan has no [oop_max]) and
    [variable_cost_raw == sum(usage_breakdown.values())]; and every
    currency field of the returned dict is the corresponding unrounded
    amount rounded to 2 decimal places, rounding being applied nowhere
    else. *)
Theorem result_identities_before_rounding (needs : user_needs) (plan : plan_data) :
  let ts := calculate_totals needs plan in
  let res := calculate_total_cost needs plan in
  (t_total_annual_cost ts == t_premium_cost ts + t_variable_cost_capped ts /\
   t_variable_cost_capped ts ==
     match oop_max plan with
     | Some m => Qmin (t_variable_cost_raw ts) m
     | None => t_variable_cost_raw ts
     end /\
   t_variable_cost_raw ts == py_sum (values (t_usage_breakdown ts))) /\
  (CostResult.total_annual_cost res = round2 (t_total_annual_cost ts) /\
   CostResult.premium_cost res = round2 (t_premium_cost ts) /\
   CostResult.medical_drug_spend res = round2 (t_variable_cost_capped ts) /\
   CostResult.deductible_paid res = round2 (deductible_paid (t_state ts)) /\
   CostResult.variable_cost_raw res = round2 (t_variable_cost_raw ts) /\
   CostResult.usage_breakdown res
     = map (fun '(k, v) => (k, round2 v)) (t_usage_breakdown ts)).
Proof.
  cbv zeta. split; [| by unfold calculate_total_cost].
  unfold calculate_totals.
  destruct (calculate_usage_cost needs plan (reset_state plan)) as [st bd].
  cbn [t_total_annual_cost t_premium_cost t_variable_cost_capped
       t_variable_cost_raw t_usage_breakdown].
  repeat split; try reflexivity.
  unfold apply_oop_cap. destruct (oop_max plan) as [m|]; [| reflexivity].
  apply (py_min_Qmin (py_sum (values bd)) m).
Qed.

(** ** Resolving a benefit key *)

(** Replacing one character by another, character by character. *)
Lemma replace_char_cons (a b c : ascii) (s : string) :
  replace (String c s) (String a EmptyString) (String b EmptyString)
  = String (if Ascii.eqb a c then b else c)
      (replace s (String a EmptyString) (String b EmptyString)).
Proof.
  unfold replace. cbn [replace_from]. unfold startswith. cbn [String.prefix].
  destruct (ascii_dec a c) as [-> | Hne].
  - rewrite Ascii.eqb_refl.
    assert (Hp : String.prefix EmptyString s = true) by (by destruct s).
    rewrite Hp. reflexivity.
  - apply Ascii.eqb_neq in Hne. by rewrite Hne.
Qed.

Lemma normalize_benefit_key_cons (c : ascii) (s : string) :
  normalize_benefit_key (String c s) =
  if isalnum (normalize_char c) || Ascii.eqb (normalize_char c) "_"
  then String (normalize_char c) (normalize_benefit_key s)
  else normalize_benefit_key s.
Proof.
  unfold normalize_benefit_key. cbn [lower].
  rewrite !replace_char_cons. reflexivity.
Qed.

Lemma normalize_char_separator (c : ascii) :
  is_separator c = true -> normalize_char c = "_"%char.
Proof. destruct c as [[] [] [] [] [] [] [] []]; (reflexivity || discriminate). Qed.

Lemma same_key_char_normalize (c1 c2 : ascii) :
  same_key_char c1 c2 = true -> normalize_char c1 = normalize_char c2.
Proof.
  unfold same_key_char. intros H. apply orb_true_iff in H as [H | H].
  - apply Ascii.eqb_eq in H. unfold normalize_char. by rewrite H.
  - apply andb_true_iff in H as [H1 H2].
    by rewrite (normalize_char_separator c1 H1), (normalize_char_separator c2 H2).
Qed.

(** Keys that differ only in case, spaces or hyphens have the same
    normal form. *)
Lemma differs_only_normalize (k1 k2 : string) :
  differs_only_in_case_spaces_hyphens k1 k2 = true ->
  normalize_benefit_key k1 = normalize_benefit_key k2.
Proof.
  revert k2. induction k1 as [| c1 s1 IH]; intros [| c2 s2];
    cbn [differs_only_in_case_spaces_hyphens]; try done.
  intros H. apply andb_true_iff in H as [Hc Hs].
  rewrite !normalize_benefit_key_cons, (same_key_char_normalize c1 c2 Hc), (IH s2 Hs).
  reflexivity.
Qed.

Lemma normalized_benefits_fold (plan_keys : list string) (m : gmap string string) (n : string) :
  fold_left (fun m k => <[normalize_benefit_key k := k]> m) plan_keys m !! n =
  match last_with_normal_form n plan_keys with
  | Some k => Some k
  | None => m !! n
  end.
Proof.
  unfold last_with_normal_form. revert m.
  induction plan_keys as [| k plan_keys IH]; intros m; [done |].
  cbn [fold_left]. rewrite IH, filter_cons.
  destruct (decide (normalize_benefit_key k = n)) as [Heq | Hne].
  - rewrite last_cons. destruct (last _); [done |].
    rewrite Heq. apply lookup_insert_eq.
  - destruct (last _); [done |]. by apply lookup_insert_ne.
Qed.

Lemma normalized_benefits_lookup (plan_keys : list string) (n : string) :
  normalized_benefits plan_keys !! n = last_with_normal_form n plan_keys.
Proof.
  unfold normalized_benefits. rewrite normalized_benefits_fold.
  destruct (last_with_normal_form n plan_keys); [done | apply lookup_empty].
Qed.

Lemma last_with_normal_form_elem (n k : string) (plan_keys : list string) :
  last_with_normal_form n plan_keys = Some k ->
  k ∈ plan_keys /\ normalize_benefit_key k = n.
Proof.
  unfold last_with_normal_form. intros H.
  apply last_Some_elem_of, list_elem_of_filter in H. tauto.
Qed.

Lemma last_with_normal_form_is_Some (n k : string) (plan_keys : list string) :
  k ∈ plan_keys -> normalize_benefit_key k = n ->
  is_Some (last_with_normal_form n plan_keys).
Proof.
  unfold last_with_normal_form. intros Hin Hn. apply last_is_Some.
  intros Hnil. eapply filter_nil_not_elem_of; [exact Hnil | exact Hn | exact Hin].
Qed.

(** C6 as stated fails for the resolver the cost engine calls:
    [_find_benefit_rule] looks the usage key up verbatim, so a rule
    stored under 'Primary-Care Visits' is not found for
    'primary_care_visits', although the two keys differ only in case, a
    space and a hyphen, have the same normal form, and are matched by
    [find_matching_benefit]. *)
Lemma engine_resolver_does_not_normalize :
  let r := BenefitRule (Some "copay"%string) (Some 20) in
  let rules : gmap string benefit_rule := <["Primary-Care Visits"%string := r]> ∅ in
  differs_only_in_case_spaces_hyphens "Primary-Care Visits" "primary_care_visits" = true /\
  normalize_benefit_key "Primary-Care Visits" = normalize_benefit_key "primary_care_visits" /\
  _find_benefit_rule "primary_care_visits" rules = None /\
  find_matching_benefit "primary_care_visits" ["Primary-Care Visits"%string] true
    = Some "Primary-Care Visits"%string.
Proof.
  vm_compute. repeat split.
Qed.

(** The normal form keeps a separator where the key has one: a plan key
    with a space where the usage key has none is not matched. *)
Example inserted_space_not_matched :
  find_matching_benefit "primary_care_visits" ["Primary Care Vis its"%string] false = None.
Proof. vm_compute. reflexivity. Qed.

(** Among several plan keys with the usage key's normal form,
    [find_matching_benefit] returns the last one, here a key that differs
    from the usage key by a stripped character. *)
Example exact_match_returns_last_key :
  find_matching_benefit "primary_care_visits"
    ["Primary-Care Visits"%string; "primary_care_visits!"%string] true
  = Some "primary_care_visits!"%string.
Proof. vm_compute. reflexivity. Qed.

(** The exact-match step on a plan key with the usage key's normal
    form. *)
Lemma exact_match_same_normal_form
    (usage_type k : string) (plan_keys : list string) (use_fallback : bool) :
  k ∈ plan_keys ->
  normalize_benefit_key k = normalize_benefit_key usage_type ->
  exists k',
    find_matching_benefit usage_type plan_keys use_fallback = Some k' /\
    k' ∈ plan_keys /\
    normalize_benefit_key k' = normalize_benefit_key usage_type /\
    last_with_normal_form (normalize_benefit_key usage_type) plan_keys = Some k' /\
    ((forall k2, k2 ∈ plan_keys ->
        normalize_benefit_key k2 = normalize_benefit_key usage_type -> k2 = k) ->
     k' = k).
Proof.
  intros Hin Hn.
  destruct (last_with_normal_form_is_Some _ k plan_keys Hin Hn) as [k' Hk'].
  destruct (last_with_normal_form_elem _ _ _ Hk') as [Hin' Hn'].
  exists k'. unfold find_matching_benefit.
  rewrite normalized_benefits_lookup, Hk'. repeat split; try done.
  intros Huniq. by apply Huniq.
Qed.

(** C6 (normalized exact match), for [find_matching_benefit].  The usage
    key and every plan rule key are normalized before they are compared.
    A plan rule key [k] that differs from the usage key only in case,
    spaces or hyphens has the usage key's normal form; and whenever a
    plan rule key [k] has that normal form, for this or any other
    reason, the exact-match step returns a plan rule key with that
    normal form, namely the last such key of the table; it is [k] itself
    when no other plan key shares the normal form. *)
Theorem exact_match_normalizes
    (usage_type k : string) (plan_keys : list string) (use_fallback : bool) :
  k ∈ plan_keys ->
  differs_only_in_case_spaces_hyphens k usage_type = true \/
  normalize_benefit_key k = normalize_benefit_key usage_type ->
  normalize_benefit_key k = normalize_benefit_key usage_type /\
  exists k',
    find_matching_benefit usage_type plan_keys use_fallback = Some k' /\
    k' ∈ plan_keys /\
    normalize_benefit_key k' = normalize_benefit_key usage_type /\
    last_with_normal_form (normalize_benefit_key usage_type) plan_keys = Some k' /\
    ((forall k2, k2 ∈ plan_keys ->
        normalize_benefit_key k2 = normalize_benefit_key usage_type -> k2 = k) ->
     k' = k).
Proof.
  intros Hin Hk.
  assert (Hn : normalize_benefit_key k = normalize_benefit_key usage_type).
  { destruct Hk as [Hk | Hk]; [by apply differs_only_normalize | done]. }
  split; [exact Hn |]. by apply exact_match_same_normal_form.
Qed.

Lemma exact_match_normalizes_witness :
  normalize_benefit_key "Primary-Care Visits" = normalize_benefit_key "primary_care_visits" /\
  exists k',
    find_matching_benefit "primary_care_visits" ["ER Visits"%string; "Primary-Care Visits"%string] true
      = Some k' /\
    k' ∈ ["ER Visits"%string; "Primary-Care Visits"%string] /\
    normalize_benefit_key k' = normalize_benefit_key "primary_care_visits" /\
    last_with_normal_form (normalize_benefit_key "primary_care_visits")
      ["ER Visits"%string; "Primary-Care Visits"%string] = Some k' /\
    ((forall k2, k2 ∈ ["ER Visits"%string; "Primary-Care Visits"%string] ->
        normalize_benefit_key k2 = normalize_benefit_key "primary_care_visits" ->
        k2 = "Primary-Care Visits"%string) ->
     k' = "Primary-Care Visits"%string).
Proof.
  apply (exact_match_normalizes "primary_care_visits" "Primary-Care Visits"
           ["ER Visits"%string; "Primary-Care Visits"%string] true).
  - apply list_elem_of_In. right. left. reflexivity.
  - left. vm_compute. reflexivity.
Defined.

(** ** The order of the usage profile *)

Lemma cost_key_and_quantity_pos (usage_key : string) (q : Q) :
  0 < q -> 0 < snd (cost_key_and_quantity usage_key q).
Proof.
  intros Hq. unfold cost_key_and_quantity.
  destruct (endswith _ _); cbn [snd]; lra.
Qed.

(** One iteration of the loop is the effect of its item. *)
Lemma usage_step_effect
    (costs : gmap string Q) (rules : gmap string benefit_rule)
    (st : calc_state) (bd : list (string * Q)) (usage_key : string) (q : Q) :
  usage_step costs rules (st, bd) (usage_key, q) =
  match run_effect (item_effect costs rules (usage_key, q)) st with
  | (None, st') => (st', bd)
  | (Some c, st') => (st', dict_set bd usage_key c)
  end.
Proof.
  unfold usage_step, item_effect.
  destruct (Qle_bool q 0) eqn:Eq; [done |].
  pose proof (cost_key_and_quantity_pos usage_key q) as Hq'.
  destruct (cost_key_and_quantity usage_key q) as [cost_key q']. cbn [snd] in Hq'.
  destruct (Qle_bool (default 0 (costs !! cost_key)) 0) eqn:Ep; [done |].
  qtests. specialize (Hq' Eq).
  destruct (_find_benefit_rule usage_key rules) as [r|]; [| done].
  destruct (rule_truthy (Some r)) eqn:Ht; cbn [negb]; [| done].
  unfold apply_benefit_rule. rewrite Ht. cbn [negb orb].
  rewrite (proj2 (Qle_bool_false q' 0) Hq').
  rewrite (proj2 (Qle_bool_false _ 0) Ep). cbn [orb].
  destruct (String.eqb (benefit_type r) "copay"); [done |].
  destruct (String.eqb (benefit_type r) "coinsurance"); [| done].
  unfold run_effect, coinsurance_charge.
  destruct (Qltb 0 (deductible_remaining st)); done.
Qed.

Lemma first_fallback_in_table
    (rules : gmap string benefit_rule) (fallbacks : list string) (r : benefit_rule) :
  first_fallback rules fallbacks = Some r -> exists k, rules !! k = Some r.
Proof.
  induction fallbacks as [| k fallbacks IH]; cbn [first_fallback]; [done |].
  destruct (rules !! k) eqn:E; [| exact IH].
  intros [= <-]. by exists k.
Qed.

(** Whatever [_find_benefit_rule] returns is a rule of the plan's table. *)
Lemma find_benefit_rule_in_table
    (usage_key : string) (rules : gmap string benefit_rule) (r : benefit_rule) :
  _find_benefit_rule usage_key rules = Some r -> exists k, rules !! k = Some r.
Proof.
  unfold _find_benefit_rule.
  destruct (rules !! usage_key) eqn:E1; [intros [= <-]; by eexists |].
  destruct (rules !! replace usage_key "_visits" "") eqn:E2; [intros [= <-]; by eexists |].
  destruct (first_fallback rules _) eqn:E3;
    [intros [= <-]; by apply first_fallback_in_table in E3 |].
  destruct (contains usage_key "_generics").
  - destruct (rules !! "generic_drug"%string) eqn:E4; [intros [= <-]; by eexists |].
    destruct (contains usage_key "_specialty"); [| done].
    destruct (rules !! "specialty_drug"%string) eqn:E5; [intros [= <-]; by eexists | done].
  - destruct (contains usage_key "_specialty"); [| done].
    destruct (rules !! "specialty_drug"%string) eqn:E5; [intros [= <-]; by eexists | done].
Qed.

Lemma item_effect_ok
    (rate : Q) (costs : gmap string Q) (rules : gmap string benefit_rule)
    (item : string * Q) :
  (forall k r, rules !! k = Some r ->
     benefit_type r = "coinsurance"%string -> benefit_value r == rate) ->
  effect_ok rate (item_effect costs rules item).
Proof.
  intros Hrate. destruct item as [usage_key q]. unfold item_effect.
  destruct (Qle_bool q 0) eqn:Eq; [done |].
  pose proof (cost_key_and_quantity_pos usage_key q) as Hq'.
  destruct (cost_key_and_quantity usage_key q) as [cost_key q']. cbn [snd] in Hq'.
  destruct (Qle_bool (default 0 (costs !! cost_key)) 0) eqn:Ep; [done |].
  qtests. specialize (Hq' Eq).
  destruct (_find_benefit_rule usage_key rules) as [r|] eqn:Ef; [| done].
  destruct (negb (rule_truthy (Some r))); [done |].
  destruct (String.eqb (benefit_type r) "copay"); [done |].
  destruct (String.eqb (benefit_type r) "coinsurance") eqn:Ec; [| done].
  apply String.eqb_eq in Ec.
  destruct (find_benefit_rule_in_table _ _ _ Ef) as [k Hk].
  split; [by apply Qmult_lt_0_compat | by apply (Hrate k r)].
Qed.

(** *** The breakdown and its sum *)

Lemma py_sum_from (vs : list Q) (a : Q) : fold_left Qplus vs a == a + py_sum vs.
Proof.
  unfold py_sum. revert a. induction vs as [| v vs IH]; intros a; cbn [fold_left].
  - ring.
  - rewrite (IH (a + v)), (IH (0 + v)). ring.
Qed.

Lemma py_sum_cons (v : Q) (vs : list Q) : py_sum (v :: vs) == v + py_sum vs.
Proof. unfold py_sum at 1. cbn [fold_left]. rewrite py_sum_from. ring. Qed.

Lemma py_sum_snoc (vs : list Q) (v : Q) : py_sum (vs ++ [v]) == py_sum vs + v.
Proof.
  induction vs as [| w vs IH].
  - cbn [app]. rewrite py_sum_cons. unfold py_sum. cbn [fold_left]. ring.
  - cbn [app]. rewrite !py_sum_cons, IH. ring.
Qed.

(** Assigning a key the dict does not have appends it. *)
Lemma dict_set_fresh (bd : list (string * Q)) (k : string) (c : Q) :
  k ∉ keys bd -> dict_set bd k c = bd ++ [(k, c)].
Proof.
  induction bd as [| [k' v'] bd IH]; intros Hk; [done |].
  cbn [dict_set]. unfold keys in Hk. cbn [map fst] in Hk.
  apply not_elem_of_cons in Hk as [Hne Hk].
  destruct (String.eqb k' k) eqn:E.
  - apply String.eqb_eq in E. congruence.
  - cbn [app]. f_equal. by apply IH.
Qed.

Lemma keys_snoc (bd : list (string * Q)) (k : string) (c : Q) :
  keys (bd ++ [(k, c)]) = keys bd ++ [k].
Proof. unfold keys. by rewrite map_app. Qed.

Lemma values_snoc (bd : list (string * Q)) (k : string) (c : Q) :
  values (bd ++ [(k, c)]) = values bd ++ [c].
Proof. unfold values. by rewrite map_app. Qed.

(** With distinct keys, none of them in the breakdown yet, the loop ends
    in the state of the effects and adds their total to the breakdown's
    sum. *)
Lemma usage_loop_total
    (costs : gmap string Q) (rules : gmap string benefit_rule)
    (items : list (string * Q)) (st : calc_state) (bd : list (string * Q)) :
  NoDup (keys items) ->
  (forall k, k ∈ keys items -> k ∉ keys bd) ->
  fst (usage_loop costs rules (st, bd) items)
    = snd (effects_total (map (item_effect costs rules) items) st) /\
  py_sum (values (snd (usage_loop costs rules (st, bd) items)))
    == py_sum (values bd)
       + fst (effects_total (map (item_effect costs rules) items) st).
Proof.
  revert st bd. induction items as [| [k q] items IH]; intros st bd Hnd Hfresh.
  - unfold usage_loop. cbn [fold_left map effects_total fst snd].
    split; [done | ring].
  - unfold keys in Hnd. cbn [map fst] in Hnd. apply NoDup_cons in Hnd as [Hk Hnd].
    unfold usage_loop. cbn [fold_left map effects_total].
    rewrite usage_step_effect.
    destruct (run_effect (item_effect costs rules (k, q)) st) as [[c|] st'].
    + rewrite dict_set_fresh by (apply Hfresh; unfold keys; cbn; left).
      destruct (IH st' (bd ++ [(k, c)]) Hnd) as [IH1 IH2].
      { intros k' Hk'. rewrite keys_snoc. intros Hin.
        apply elem_of_app in Hin as [Hin | Hin].
        - revert Hin. apply Hfresh. unfold keys. cbn. by right.
        - apply list_elem_of_singleton in Hin. subst k'. by apply Hk. }
      unfold usage_loop in IH1, IH2. rewrite IH1, IH2.
      destruct (effects_total _ st') as [t st'']. cbn [fst snd default].
      split; [done |]. rewrite values_snoc, py_sum_snoc. unfold id. ring.
    + destruct (IH st' bd Hnd) as [IH1 IH2].
      { intros k' Hk'. apply Hfresh. unfold keys. cbn. by right. }
      unfold usage_loop in IH1, IH2. rewrite IH1, IH2.
      destruct (effects_total _ st') as [t st'']. cbn [fst snd default].
      split; [done | ring].
Qed.

(** *** The total in exact arithmetic, when all coinsurance rates agree *)

Lemma Qmax_0_nonpos (d : Q) : d <= 0 -> Qmax d 0 == 0.
Proof. intros Hd. destruct (Q.max_spec d 0) as [[? E] | [? E]]; lra. Qed.

Lemma Qmax_0_nonneg (d : Q) : 0 <= d -> Qmax d 0 == d.
Proof. intros Hd. destruct (Q.max_spec d 0) as [[? E] | [? E]]; lra. Qed.

Lemma consumed_exhausted (d M : Q) :
  d <= 0 -> 0 <= M -> Qmin (Qmax d 0) M == 0.
Proof.
  intros Hd HM. rewrite (Qmax_0_nonpos d Hd).
  destruct (Q.min_spec 0 M) as [[? E] | [? E]]; lra.
Qed.

Lemma consumed_step (d m M : Q) :
  0 < d -> 0 < m -> 0 <= M ->
  Qmin (Qmax d 0) (m + M) == py_min m d + Qmin (Qmax (d - py_min m d) 0) M.
Proof.
  intros Hd Hm HM. rewrite (Qmax_0_nonneg d) by lra.
  destruct (py_min_cases m d) as [[Hlt ->] | [Hle ->]].
  - rewrite (consumed_exhausted (d - d) M) by lra.
    destruct (Q.min_spec d (m + M)) as [[? E] | [? E]]; lra.
  - rewrite (Qmax_0_nonneg (d - m)) by lra.
    destruct (Q.min_spec d (m + M)) as [[? E1] | [? E1]];
      destruct (Q.min_spec (d - m) M) as [[? E2] | [? E2]]; lra.
Qed.

Lemma market_sum_nonneg (rate : Q) (es : list effect) :
  Forall (effect_ok rate) es -> 0 <= market_sum es.
Proof.
  induction 1 as [| e es He _ IH]; cbn [market_sum]; [lra |].
  destruct e as [| c | m v]; try done. destruct He as [Hm _]. lra.
Qed.

(** The total charged, the deductible consumed and the final state of a
    list of effects whose coinsurance rates all equal [rate]: the
    deductible consumed is [min(max(d, 0), M)] for the initial
    [deductible_remaining = d] and the sum [M] of the coinsurance market
    totals. *)
Lemma effects_total_closed (rate : Q) (es : list effect) (st : calc_state) :
  Forall (effect_ok rate) es ->
  let P := Qmin (Qmax (deductible_remaining st) 0) (market_sum es) in
  fst (effects_total es st) == fixed_sum es + P + (market_sum es - P) * rate /\
  deductible_remaining (snd (effects_total es st)) == deductible_remaining st - P /\
  deductible_paid (snd (effects_total es st)) == deductible_paid st + P.
Proof.
  intros Hok. revert st. induction Hok as [| e es He Hok IH]; intros st; cbv zeta.
  - cbn [effects_total market_sum fixed_sum fst snd].
    assert (HP : Qmin (Qmax (deductible_remaining st) 0) 0 == 0).
    { destruct (Q.max_spec (deductible_remaining st) 0) as [[? E1] | [? E1]];
        destruct (Q.min_spec (Qmax (deductible_remaining st) 0) 0) as [[? E2] | [? E2]];
        lra. }
    rewrite HP. repeat split; ring.
  - pose proof (market_sum_nonneg rate es Hok) as HM.
    cbn [effects_total]. destruct e as [| c | m v].
    + cbn [run_effect market_sum fixed_sum].
      specialize (IH st). cbv zeta in IH.
      destruct (effects_total es st) as [t st'']. cbn [fst snd default] in *.
      destruct IH as (IH1 & IH2 & IH3). rewrite IH1. repeat split; try done. ring.
    + cbn [run_effect market_sum fixed_sum].
      specialize (IH st). cbv zeta in IH.
      destruct (effects_total es st) as [t st'']. cbn [fst snd default] in *.
      destruct IH as (IH1 & IH2 & IH3). rewrite IH1. unfold id.
      repeat split; try done. ring.
    + destruct He as [Hm Hv]. cbn [run_effect market_sum fixed_sum].
      unfold coinsurance_charge.
      destruct (Qltb 0 (deductible_remaining st)) eqn:Ed; qtests.
      * specialize (IH {| deductible_remaining :=
                            deductible_remaining st - py_min m (deductible_remaining st);
                          deductible_paid :=
                            deductible_paid st + py_min m (deductible_remaining st) |}).
        cbv zeta in IH. cbn [deductible_remaining deductible_paid] in IH.
        destruct (effects_total es _) as [t st'']. cbn [fst snd default] in *.
        destruct IH as (IH1 & IH2 & IH3). unfold id.
        rewrite IH1, IH2, IH3, Hv.
        rewrite (consumed_step (deductible_remaining st) m (market_sum es)) by done.
        repeat split; ring.
      * specialize (IH st). cbv zeta in IH.
        destruct (effects_total es st) as [t st'']. cbn [fst snd default] in *.
        destruct IH as (IH1 & IH2 & IH3). unfold id.
        rewrite IH1, IH2, IH3, Hv.
        rewrite (consumed_exhausted (deductible_remaining st) (market_sum es)) by done.
        rewrite (consumed_exhausted (deductible_remaining st) (m + market_sum es)) by lra.
        repeat split; ring.
Qed.

Lemma fixed_sum_perm (es1 es2 : list effect) :
  Permutation es1 es2 -> fixed_sum es1 == fixed_sum es2.
Proof.
  induction 1 as [| e es1 es2 _ IH | e1 e2 es | es1 es2 es3 _ IH1 _ IH2].
  - reflexivity.
  - destruct e; cbn [fixed_sum]; rewrite IH; reflexivity.
  - destruct e1, e2; cbn [fixed_sum]; ring.
  - by rewrite IH1.
Qed.

Lemma market_sum_perm (es1 es2 : list effect) :
  Permutation es1 es2 -> market_sum es1 == market_sum es2.
Proof.
  induction 1 as [| e es1 es2 _ IH | e1 e2 es | es1 es2 es3 _ IH1 _ IH2].
  - reflexivity.
  - destruct e; cbn [market_sum]; rewrite IH; reflexivity.
  - destruct e1, e2; cbn [market_sum]; ring.
  - by rewrite IH1.
Qed.

(** The raw variable cost and the final state of a calculation, as the
    total and the final state of the effects of its profile. *)
Lemma calculate_totals_effects
    (profile : list (string * Q)) (costs : gmap string Q) (plan : plan_data) :
  NoDup (keys profile) ->
  let es := map (item_effect costs (default ∅ (benefit_rules plan))) profile in
  t_variable_cost_raw (calculate_totals (UserNeeds profile costs) plan)
    == fst (effects_total es (reset_state plan)) /\
  t_state (calculate_totals (UserNeeds profile costs) plan)
    = snd (effects_total es (reset_state plan)).
Proof.
  intros Hnd. cbv zeta.
  destruct (usage_loop_total costs (default ∅ (benefit_rules plan)) profile
              (reset_state plan) [] Hnd) as [H1 H2].
  { intros k _. unfold keys. cbn. apply not_elem_of_nil. }
  unfold calculate_totals, calculate_usage_cost.
  cbn [usage_profile standard_costs].
  destruct (usage_loop _ _ _ profile) as [st bd].
  cbn [t_variable_cost_raw t_state fst snd] in *.
  split; [| done]. rewrite H2. unfold py_sum, values. cbn [map fold_left]. ring.
Qed.

(** C5 as stated fails: the total depends on the order when coinsurance
    rates differ.  With a deductible of 500 and two services of market
    total 1000 each, one at 10 percent and one at 50 percent, the deductible is paid
    by whichever comes first: 550 + 500 = 1050 in one order and
    100 + 750 = 850 in the other. *)
Lemma variable_cost_depends_on_order :
  let costs : gmap string Q :=
    <["primary_care_visit"%string := 200]> (<["specialist_visit"%string := 200]> ∅) in
  let plan :=
    PlanData (Some "Plan"%string) (Some 100) (Some 500) (Some 10000)
      (Some (<["primary_care_visits"%string :=
                 BenefitRule (Some "coinsurance"%string) (Some (1 # 10))]>
            (<["specialist_visits"%string :=
                 BenefitRule (Some "coinsurance"%string) (Some (1 # 2))]> ∅))) in
  let profile1 := [("primary_care_visits"%string, 5); ("specialist_visits"%string, 5)] in
  let profile2 := [("specialist_visits"%string, 5); ("primary_care_visits"%string, 5)] in
  let ts1 := calculate_totals (UserNeeds profile1 costs) plan in
  let ts2 := calculate_totals (UserNeeds profile2 costs) plan in
  Permutation profile1 profile2 /\
  t_variable_cost_raw ts1 == 1050 /\
  t_variable_cost_raw ts2 == 850 /\
  ~ t_variable_cost_raw ts1 == t_variable_cost_raw ts2 /\
  ~ CostResult.variable_cost_raw (calculate_total_cost (UserNeeds profile1 costs) plan)
      == CostResult.variable_cost_raw (calculate_total_cost (UserNeeds profile2 costs) plan).
Proof.
  cbv zeta. split; [apply perm_swap |].
  vm_compute. repeat split; discriminate.
Qed.

(** Equal rates do not make the total order-invariant either, because
    the sums are rounded along the way.  With a deductible of 350 and
    two services at 10 percent coinsurance, 5 x 49.95 and 10 x 100.1, the raw
    total is 440.07499999999999 in one order and 440.07500000000005 in
    the other, and the result dict reports 440.07 and 440.08. *)
Example equal_rate_total_depends_on_order :
  let rule := Binary64.BenefitRule (Some "coinsurance"%string) (Some 0.1%float) in
  let costs : gmap string float :=
    <["primary_care_visit"%string := 49.95%float]>
    (<["specialist_visit"%string := 100.1%float]> ∅) in
  let plan :=
    Binary64.PlanData (Some "Plan"%string) (Some 100%float) (Some 350%float)
      (Some 6000%float)
      (Some (<["primary_care_visits"%string := rule]>
            (<["specialist_visits"%string := rule]> ∅))) in
  let profile1 :=
    [("primary_care_visits"%string, 5%float); ("specialist_visits"%string, 10%float)] in
  let profile2 :=
    [("specialist_visits"%string, 10%float); ("primary_care_visits"%string, 5%float)] in
  let ts1 := Binary64.calculate_totals (Binary64.UserNeeds profile1 costs) plan in
  let ts2 := Binary64.calculate_totals (Binary64.UserNeeds profile2 costs) plan in
  let res1 := Binary64.calculate_total_cost (Binary64.UserNeeds profile1 costs) plan in
  let res2 := Binary64.calculate_total_cost (Binary64.UserNeeds profile2 costs) plan in
  Permutation profile1 profile2 /\
  Binary64.t_variable_cost_raw ts1 = 440.07499999999999%float /\
  Binary64.t_variable_cost_raw ts2 = 440.07500000000005%float /\
  PrimFloat.eqb (Binary64.t_variable_cost_raw ts1) (Binary64.t_variable_cost_raw ts2)
    = false /\
  Binary64.CostResult.variable_cost_raw res1 = 440.07%float /\
  Binary64.CostResult.variable_cost_raw res2 = 440.08%float /\
  PrimFloat.eqb (Binary64.CostResult.variable_cost_raw res1)
    (Binary64.CostResult.variable_cost_raw res2) = false.
Proof.
  cbv zeta. split; [apply perm_swap |].
  vm_compute. repeat split.
Qed.

(** In exact arithmetic, that is without the rounding of the sums, one
    common coinsurance rate does make the total order-invariant: for two
    usage profiles with the same service/quantity pairs in different
    insertion orders, when every coinsurance rule of the plan has the
    rate [rate], the exact total and the exact [deductible_paid] are the
    same for both orders. *)
Theorem exact_total_order_invariant
    (profile1 profile2 : list (string * Q)) (costs : gmap string Q)
    (plan : plan_data) (rate : Q) :
  Permutation profile1 profile2 ->
  NoDup (keys profile1) ->
  (forall k r, default ∅ (benefit_rules plan) !! k = Some r ->
     benefit_type r = "coinsurance"%string -> benefit_value r == rate) ->
  let ts1 := calculate_totals (UserNeeds profile1 costs) plan in
  let ts2 := calculate_totals (UserNeeds profile2 costs) plan in
  t_variable_cost_raw ts1 == t_variable_cost_raw ts2 /\
  deductible_paid (t_state ts1) == deductible_paid (t_state ts2).
Proof.
  intros Hperm Hnd1 Hrate. cbv zeta.
  assert (Hnd2 : NoDup (keys profile2)).
  { unfold keys in *.
    assert (Hk : map fst profile1 ≡ₚ map fst profile2) by (by apply Permutation_map).
    by rewrite <- Hk. }
  destruct (calculate_totals_effects profile1 costs plan Hnd1) as [R1 S1].
  destruct (calculate_totals_effects profile2 costs plan Hnd2) as [R2 S2].
  set (rules := default ∅ (benefit_rules plan)) in *.
  set (es1 := map (item_effect costs rules) profile1) in *.
  set (es2 := map (item_effect costs rules) profile2) in *.
  assert (Hes : Permutation es1 es2) by (by apply Permutation_map).
  assert (Hok : forall profile,
             Forall (effect_ok rate) (map (item_effect costs rules) profile)).
  { intros profile. induction profile as [| item profile IH]; constructor;
      [by apply item_effect_ok | exact IH]. }
  pose proof (Hok profile1) as Hok1. pose proof (Hok profile2) as Hok2.
  fold es1 in Hok1. fold es2 in Hok2.
  destruct (effects_total_closed rate es1 (reset_state plan) Hok1) as (T1 & _ & P1).
  destruct (effects_total_closed rate es2 (reset_state plan) Hok2) as (T2 & _ & P2).
  rewrite R1, R2, S1, S2, T1, T2, P1, P2.
  rewrite (fixed_sum_perm es1 es2 Hes), (market_sum_perm es1 es2 Hes).
  split; reflexivity.
Qed.

Lemma exact_total_order_invariant_witness :
  let costs : gmap string Q :=
    <["primary_care_visit"%string := 200]> (<["specialist_visit"%string := 400]> ∅) in
  let plan :=
    PlanData (Some "Plan"%string) (Some 100) (Some 500) (Some 10000)
      (Some (<["primary_care_visits"%string :=
                 BenefitRule (Some "coinsurance"%string) (Some (1 # 5))]>
            (<["specialist_visits"%string :=
                 BenefitRule (Some "coinsurance"%string) (Some (1 # 5))]> ∅))) in
  let profile1 := [("primary_care_visits"%string, 5); ("specialist_visits"%string, 2)] in
  let profile2 := [("specialist_visits"%string, 2); ("primary_care_visits"%string, 5)] in
  let ts1 := calculate_totals (UserNeeds profile1 costs) plan in
  let ts2 := calculate_totals (UserNeeds profile2 costs) plan in
  t_variable_cost_raw ts1 == t_variable_cost_raw ts2 /\
  deductible_paid (t_state ts1) == deductible_paid (t_state ts2).
Proof.
  apply (exact_total_order_invariant
           [("primary_care_visits"%string, 5); ("specialist_visits"%string, 2)]
           [("specialist_visits"%string, 2); ("primary_care_visits"%string, 5)]
           (<["primary_care_visit"%string := 200]> (<["specialist_visit"%string := 400]> ∅))
           (PlanData (Some "Plan"%string) (Some 100) (Some 500) (Some 10000)
              (Some (<["primary_care_visits"%string :=
                         BenefitRule (Some "coinsurance"%string) (Some (1 # 5))]>
                    (<["specialist_visits"%string :=
                         BenefitRule (Some "coinsurance"%string) (Some (1 # 5))]> ∅))))
           (1 # 5)).
  - apply perm_swap.
  - apply (bool_decide_unpack _). vm_compute. reflexivity.
  - cbn [benefit_rules default]. intros k r Hk _. unfold id in Hk.
    apply lookup_insert_Some in Hk as [[_ <-] | [_ Hk]]; [reflexivity |].
    apply lookup_insert_Some in Hk as [[_ <-] | [_ Hk]]; [reflexivity |].
    by rewrite lookup_empty in Hk.
Defined.

(** With the plan above the per-service costs do differ between the two
    orders. *)
Example per_service_costs_differ :
  let costs : gmap string Q :=
    <["primary_care_visit"%string := 200]> (<["specialist_visit"%string := 400]> ∅) in
  let rules : gmap string benefit_rule :=
    <["primary_care_visits"%string := BenefitRule (Some "coinsurance"%string) (Some (1 # 5))]>
    (<["specialist_visits"%string := BenefitRule (Some "coinsurance"%string) (Some (1 # 5))]> ∅) in
  let plan := PlanData (Some "Plan"%string) (Some 100) (Some 500) (Some 10000) (Some rules) in
  let profile1 := [("primary_care_visits"%string, 5); ("specialist_visits"%string, 2)] in
  let profile2 := [("specialist_visits"%string, 2); ("primary_care_visits"%string, 5)] in
  CostResult.usage_breakdown (calculate_total_cost (UserNeeds profile1 costs) plan)
    = [("primary_care_visits"%string, 60000 # 100); ("specialist_visits"%string, 16000 # 100)] /\
  CostResult.usage_breakdown (calculate_total_cost (UserNeeds profile2 costs) plan)
    = [("specialist_visits"%string, 56000 # 100); ("primary_care_visits"%string, 20000 # 100)].
Proof. vm_compute. split; reflexivity. Qed.

(** ** Ranking a batch of plans *)

Lemma merge_sort_values_perm (rows : list result_row) :
  Permutation rows (merge_sort_values rows).
Proof. symmetry. apply merge_sort_Permutation. Qed.

Lemma ranks_lookup (n i : nat) (k : Z) :
  ranks n !! i = Some k -> k = Z.of_nat (S i).
Proof.
  unfold ranks. rewrite list_lookup_fmap. intros H.
  destruct (seq 1 n !! i) as [m|] eqn:E; [| done].
  apply lookup_seq in E as [-> _]. by injection H as <-.
Qed.

Section Ranking.

Variable sort_values : list result_row -> list result_row.

(** [sort_values] returns the rows it is given, in some order. *)
Hypothesis sort_values_perm : forall rows, Permutation rows (sort_values rows).

(** The rank column counts the positions of the sorted frame from 1. *)
Lemma calculate_all_plans_lookup
    (plans_df : list plan_data) (needs : user_needs) (i : nat) (k : Z) (row : result_row) :
  calculate_all_plans sort_values plans_df needs !! i = Some (k, row) ->
  k = Z.of_nat (S i) /\ sort_values (plan_results plans_df needs) !! i = Some row.
Proof.
  unfold calculate_all_plans.
  destruct (plan_results plans_df needs) as [| r0 rows] eqn:E; [done |].
  intros H. apply lookup_zip_with_Some in H as (k' & row' & [= <- <-] & Hk & Hrow).
  split; [by apply ranks_lookup in Hk | done].
Qed.

Lemma calculate_all_plans_rows (plans_df : list plan_data) (needs : user_needs) :
  Permutation (plan_results plans_df needs)
    (map snd (calculate_all_plans sort_values plans_df needs)).
Proof.
  unfold calculate_all_plans.
  destruct (plan_results plans_df needs) as [| r0 rows] eqn:E; [done |].
  rewrite <- E.
  change (map snd ?l) with (snd <$> l).
  rewrite snd_zip; [apply sort_values_perm |].
  unfold ranks. by rewrite length_fmap, length_seq.
Qed.

End Ranking.

(** * Further properties of the engine *)

(** ** The out-of-pocket cap *)

(** [apply_oop_cap] never returns more than it is given, never more
    than the plan's [oop_max], and returns the amount unchanged when it
    does not exceed [oop_max] or when the plan has no [oop_max]. *)
Lemma oop_cap_bounds (plan : plan_data) (v : Q) :
  apply_oop_cap plan v <= v /\
  (forall m, oop_max plan = Some m ->
     apply_oop_cap plan v <= m /\ (v <= m -> apply_oop_cap plan v = v)) /\
  (oop_max plan = None -> apply_oop_cap plan v = v).
Proof.
  unfold apply_oop_cap. destruct (oop_max plan) as [m|].
  - destruct (Qltb m v) eqn:E; qtests; (split; [lra | split; [| done]]).
    + intros m' [= <-]. split; [lra | intros; lra].
    + intros m' [= <-]. split; [lra | done].
  - split; [lra | split; [done | done]].
Qed.

(** X1.  The total before rounding is the premium plus at most
    [oop_max]: whatever the usage, a plan with an out-of-pocket maximum
    costs at most [26 * biweekly_premium + oop_max]. *)
Theorem total_cost_upper_bound (needs : user_needs) (plan : plan_data) (m : Q) :
  oop_max plan = Some m ->
  t_total_annual_cost (calculate_totals needs plan)
    <= default 0 (biweekly_premium plan) * 26 + m.
Proof.
  intros Hm. unfold calculate_totals.
  destruct (calculate_usage_cost needs plan (reset_state plan)) as [st bd].
  cbn [t_total_annual_cost]. unfold calculate_premium_cost, apply_oop_cap.
  rewrite Hm. destruct (Qltb m (py_sum (values bd))) eqn:E; qtests; lra.
Qed.

Lemma total_cost_upper_bound_witness :
  let needs := UserNeeds [("specialist_visits"%string, 50)]
                 (<["specialist_visit"%string := 400]> ∅) in
  let plan := PlanData (Some "OOP Cap Test Plan"%string) (Some 100) (Some 1000) (Some 5000)
                (Some (<["specialist_visits"%string :=
                           BenefitRule (Some "coinsurance"%string) (Some (1 # 2))]> ∅)) in
  t_total_annual_cost (calculate_totals needs plan)
    <= default 0 (biweekly_premium plan) * 26 + 5000.
Proof.
  apply (total_cost_upper_bound
           (UserNeeds [("specialist_visits"%string, 50)]
              (<["specialist_visit"%string := 400]> ∅))
           (PlanData (Some "OOP Cap Test Plan"%string) (Some 100) (Some 1000) (Some 5000)
              (Some (<["specialist_visits"%string :=
                         BenefitRule (Some "coinsurance"%string) (Some (1 # 2))]> ∅)))
           5000).
  reflexivity.
Defined.

(** ** The deductible along the loop *)

Lemma apply_state_monotone (rule : option benefit_rule) (p q : Q) (st : calc_state) :
  let st' := snd (apply_benefit_rule rule p q st) in
  deductible_remaining st' <= deductible_remaining st /\
  deductible_paid st <= deductible_paid st'.
Proof.
  cbv zeta.
  destruct (apply_state_cases rule p q st) as [-> | (Hp & Hq & Hd & ->)].
  - split; lra.
  - assert (Hm : 0 < p * q) by (apply Qmult_lt_0_compat; done).
    cbn [deductible_remaining deductible_paid].
    destruct (py_min_cases (p * q) (deductible_remaining st)) as [[Hlt ->] | [Hle ->]];
      split; lra.
Qed.

Lemma usage_step_state_monotone
    (costs : gmap string Q) (rules : gmap string benefit_rule)
    (acc : calc_state * list (string * Q)) (item : string * Q) :
  let st := fst acc in
  let st' := fst (usage_step costs rules acc item) in
  deductible_remaining st' <= deductible_remaining st /\
  deductible_paid st <= deductible_paid st'.
Proof.
  cbv zeta. destruct acc as [st bd], item as [k q]. unfold usage_step. cbn [fst].
  destruct (Qle_bool q 0); [cbn [fst]; split; lra |].
  destruct (cost_key_and_quantity k q) as [cost_key q'].
  destruct (Qle_bool (default 0 (costs !! cost_key)) 0); [cbn [fst]; split; lra |].
  destruct (negb (rule_truthy (_find_benefit_rule k rules))); [cbn [fst]; split; lra |].
  pose proof (apply_state_monotone (_find_benefit_rule k rules)
                (default 0 (costs !! cost_key)) q' st) as H.
  destruct (apply_benefit_rule _ _ _ st) as [cost st']. cbn [fst snd] in *. exact H.
Qed.

(** X4.  Along the loop of [calculate_usage_cost], from any state and
    over any services, [deductible_remaining] never goes up and
    [deductible_paid] never goes down. *)
Theorem deductible_moves_one_way
    (costs : gmap string Q) (rules : gmap string benefit_rule)
    (items : list (string * Q)) (acc : calc_state * list (string * Q)) :
  let st := fst acc in
  let st' := fst (usage_loop costs rules acc items) in
  deductible_remaining st' <= deductible_remaining st /\
  deductible_paid st <= deductible_paid st'.
Proof.
  cbv zeta. revert acc. induction items as [| item items IH]; intros acc.
  - unfold usage_loop. cbn [fold_left]. split; lra.
  - unfold usage_loop. cbn [fold_left].
    destruct (usage_step_state_monotone costs rules acc item) as (H1 & H2).
    destruct (IH (usage_step costs rules acc item)) as (I1 & I2).
    unfold usage_loop in I1, I2. split; lra.
Qed.

(** ** The calculation as a list of effects *)

Lemma usage_loop_state
    (costs : gmap string Q) (rules : gmap string benefit_rule)
    (items : list (string * Q)) (st : calc_state) (bd : list (string * Q)) :
  fst (usage_loop costs rules (st, bd) items)
    = snd (effects_total (map (item_effect costs rules) items) st).
Proof.
  revert st bd. induction items as [| [k q] items IH]; intros st bd; [done |].
  unfold usage_loop. cbn [fold_left map effects_total].
  rewrite usage_step_effect.
  destruct (run_effect (item_effect costs rules (k, q)) st) as [[c|] st'].
  - change (fold_left (usage_step costs rules) items (st', dict_set bd k c))
      with (usage_loop costs rules (st', dict_set bd k c) items).
    rewrite IH. destruct (effects_total _ st') as [t st'']. done.
  - change (fold_left (usage_step costs rules) items (st', bd))
      with (usage_loop costs rules (st', bd) items).
    rewrite IH. destruct (effects_total _ st') as [t st'']. done.
Qed.

(** ** When the deductible is never touched *)

Lemma effects_state_unchanged (es : list effect) (st : calc_state) :
  Forall (fun e => match e with
                   | Coins _ _ => deductible_remaining st <= 0
                   | _ => True
                   end) es ->
  snd (effects_total es st) = st.
Proof.
  induction 1 as [| e es He _ IH]; [done |].
  cbn [effects_total]. destruct e as [| c | m v]; cbn [run_effect].
  - destruct (effects_total es st) as [t st'']. exact IH.
  - destruct (effects_total es st) as [t st'']. exact IH.
  - unfold coinsurance_charge.
    rewrite (proj2 (Qltb_false 0 (deductible_remaining st)) He).
    destruct (effects_total es st) as [t st'']. exact IH.
Qed.

Lemma item_effect_coins
    (costs : gmap string Q) (rules : gmap string benefit_rule)
    (item : string * Q) (m v : Q) :
  item_effect costs rules item = Coins m v ->
  exists k r, rules !! k = Some r /\ benefit_type r = "coinsurance"%string
              /\ v = benefit_value r.
Proof.
  destruct item as [usage_key q]. unfold item_effect.
  destruct (Qle_bool q 0); [done |].
  destruct (cost_key_and_quantity usage_key q) as [cost_key q'].
  destruct (Qle_bool (default 0 (costs !! cost_key)) 0); [done |].
  destruct (_find_benefit_rule usage_key rules) as [r|] eqn:Ef; [| done].
  destruct (negb (rule_truthy (Some r))); [done |].
  destruct (String.eqb (benefit_type r) "copay"); [done |].
  destruct (String.eqb (benefit_type r) "coinsurance") eqn:Ec; [| done].
  intros [= _ <-]. apply String.eqb_eq in Ec.
  destruct (find_benefit_rule_in_table _ _ _ Ef) as [k Hk]. by exists k, r.
Qed.

(** X7.  On a plan none of whose rules is a coinsurance rule (a copay
    plan), a calculation never touches the deductible: the final state is
    the reset state, and the result reports [deductible_paid] 0, whatever
    the annual deductible and the usage. *)
Theorem copay_plan_pays_no_deductible (needs : user_needs) (plan : plan_data) :
  (forall k r, default ∅ (benefit_rules plan) !! k = Some r ->
     benefit_type r <> "coinsurance"%string) ->
  t_state (calculate_totals needs plan) = reset_state plan /\
  CostResult.deductible_paid (calculate_total_cost needs plan) == 0.
Proof.
  intros Hno.
  assert (Hst : t_state (calculate_totals needs plan) = reset_state plan).
  { rewrite calculate_totals_state, usage_loop_state.
    apply effects_state_unchanged. apply Forall_forall. intros e He.
    destruct e as [| c | m v]; try done.
    apply list_elem_of_In, in_map_iff in He as (item & Hitem & _).
    apply item_effect_coins in Hitem as (k & r & Hk & Hty & _).
    by destruct (Hno k r Hk). }
  split; [exact Hst |].
  unfold calculate_total_cost. cbn [CostResult.deductible_paid]. rewrite Hst.
  reflexivity.
Qed.

Lemma copay_plan_pays_no_deductible_witness :
  let needs :=
    UserNeeds [("primary_care_visits"%string, 5)]
      (<["primary_care_visit"%string := 200]> ∅) in
  let plan :=
    PlanData (Some "Copay Test Plan"%string) (Some 100) (Some 1000) (Some 10000)
      (Some (<["primary_care_visits"%string :=
                 BenefitRule (Some "copay"%string) (Some 20)]> ∅)) in
  t_state (calculate_totals needs plan) = reset_state plan /\
  CostResult.deductible_paid (calculate_total_cost needs plan) == 0.
Proof.
  apply (copay_plan_pays_no_deductible
           (UserNeeds [("primary_care_visits"%string, 5)]
              (<["primary_care_visit"%string := 200]> ∅))
           (PlanData (Some "Copay Test Plan"%string) (Some 100) (Some 1000) (Some 10000)
              (Some (<["primary_care_visits"%string :=
                         BenefitRule (Some "copay"%string) (Some 20)]> ∅)))).
  cbn [benefit_rules default]. unfold id. intros k r Hk.
  apply lookup_insert_Some in Hk as [[_ <-] | [_ Hk]]; [discriminate |].
  by rewrite lookup_empty in Hk.
Defined.

(** X8.  On a plan with no deductible (an annual deductible of 0, absent,
    or negative) the state never changes, and every coinsurance service
    costs its market total times the rate. *)
Theorem no_deductible_plain_coinsurance (needs : user_needs) (plan : plan_data) :
  default 0 (annual_deductible plan) <= 0 ->
  t_state (calculate_totals needs plan) = reset_state plan /\
  (forall r p q, benefit_type r = "coinsurance"%string -> 0 < p -> 0 < q ->
     apply_benefit_rule (Some r) p q (reset_state plan)
       = (p * q * benefit_value r, reset_state plan)).
Proof.
  intros HD. split.
  - rewrite calculate_totals_state, usage_loop_state.
    apply effects_state_unchanged. apply Forall_forall. intros e _.
    destruct e; done.
  - intros r p q Hty Hp Hq. rewrite (apply_coinsurance r p q _ Hty Hp Hq).
    unfold reset_state at 1. cbn [deductible_remaining].
    by rewrite (proj2 (Qltb_false 0 _) HD).
Qed.

Lemma no_deductible_plain_coinsurance_witness :
  let needs :=
    UserNeeds [("primary_care_visits"%string, 5)]
      (<["primary_care_visit"%string := 200]> ∅) in
  let plan :=
    PlanData (Some "Sample HMO Plan A"%string) (Some 150) (Some 0) (Some 6000)
      (Some (<["primary_care_visits"%string :=
                 BenefitRule (Some "coinsurance"%string) (Some (1 # 5))]> ∅)) in
  t_state (calculate_totals needs plan) = reset_state plan /\
  (forall r p q, benefit_type r = "coinsurance"%string -> 0 < p -> 0 < q ->
     apply_benefit_rule (Some r) p q (reset_state plan)
       = (p * q * benefit_value r, reset_state plan)).
Proof.
  apply (no_deductible_plain_coinsurance
           (UserNeeds [("primary_care_visits"%string, 5)]
              (<["primary_care_visit"%string := 200]> ∅))
           (PlanData (Some "Sample HMO Plan A"%string) (Some 150) (Some 0) (Some 6000)
              (Some (<["primary_care_visits"%string :=
                         BenefitRule (Some "coinsurance"%string) (Some (1 # 5))]> ∅)))).
  discriminate.
Defined.

(** ** What the breakdown holds *)

Lemma item_effect_nonneg
    (costs : gmap string Q) (rules : gmap string benefit_rule) (item : string * Q) :
  (forall k r, rules !! k = Some r -> 0 <= benefit_value r) ->
  match item_effect costs rules item with
  | Skip => True
  | Fixed c => 0 <= c
  | Coins m v => 0 < m /\ 0 <= v
  end.
Proof.
  intros Hnn. destruct item as [usage_key q]. unfold item_effect.
  destruct (Qle_bool q 0) eqn:Eq; [done |].
  pose proof (cost_key_and_quantity_pos usage_key q) as Hq'.
  destruct (cost_key_and_quantity usage_key q) as [cost_key q']. cbn [snd] in Hq'.
  destruct (Qle_bool (default 0 (costs !! cost_key)) 0) eqn:Ep; [done |].
  qtests. specialize (Hq' Eq).
  destruct (_find_benefit_rule usage_key rules) as [r|] eqn:Ef; [| lra].
  destruct (find_benefit_rule_in_table _ _ _ Ef) as [k Hk].
  pose proof (Hnn k r Hk) as Hv.
  destruct (negb (rule_truthy (Some r))); [lra |].
  destruct (String.eqb (benefit_type r) "copay").
  { apply Qmult_le_0_compat; lra. }
  destruct (String.eqb (benefit_type r) "coinsurance"); [| lra].
  split; [by apply Qmult_lt_0_compat | done].
Qed.

Lemma coinsurance_charge_nonneg (m v : Q) (st : calc_state) :
  0 < m -> 0 <= v -> 0 <= fst (coinsurance_charge m v st).
Proof.
  intros Hm Hv. unfold coinsurance_charge.
  destruct (Qltb 0 (deductible_remaining st)) eqn:E; qtests; cbn [fst].
  - destruct (py_min_cases m (deductible_remaining st)) as [[Hlt ->] | [Hle ->]].
    + assert (0 <= (m - deductible_remaining st) * v) by (apply Qmult_le_0_compat; lra).
      lra.
    + assert (0 <= (m - m) * v) by (apply Qmult_le_0_compat; lra). lra.
  - apply Qmult_le_0_compat; lra.
Qed.

Lemma dict_set_Forall (P : Q -> Prop) (bd : list (string * Q)) (k : string) (c : Q) :
  Forall (fun kv => P (snd kv)) bd -> P c ->
  Forall (fun kv => P (snd kv)) (dict_set bd k c).
Proof.
  intros Hbd Hc. induction Hbd as [| [k' v'] bd Hv Hbd IH]; cbn [dict_set].
  - by constructor.
  - destruct (String.eqb k' k); constructor; assumption.
Qed.

Lemma usage_loop_Forall
    (P : Q -> Prop) (costs : gmap string Q) (rules : gmap string benefit_rule)
    (items : list (string * Q)) (st : calc_state) (bd : list (string * Q)) :
  (forall item st0 c st1,
     run_effect (item_effect costs rules item) st0 = (Some c, st1) -> P c) ->
  Forall (fun kv => P (snd kv)) bd ->
  Forall (fun kv => P (snd kv)) (snd (usage_loop costs rules (st, bd) items)).
Proof.
  intros Hrun. revert st bd. induction items as [| [k q] items IH]; intros st bd Hbd.
  - exact Hbd.
  - unfold usage_loop. cbn [fold_left]. rewrite usage_step_effect.
    destruct (run_effect (item_effect costs rules (k, q)) st) as [[c|] st'] eqn:E.
    + apply (IH st' (dict_set bd k c)). apply dict_set_Forall; [done |].
      by eapply Hrun.
    + by apply (IH st' bd).
Qed.

Lemma py_sum_nonneg (bd : list (string * Q)) :
  Forall (fun kv => 0 <= snd kv) bd -> 0 <= py_sum (values bd).
Proof.
  induction 1 as [| kv bd Hkv _ IH].
  - unfold py_sum, values. cbn. lra.
  - unfold values. cbn [map]. rewrite py_sum_cons. unfold values in IH. lra.
Qed.

Lemma calculate_totals_breakdown (needs : user_needs) (plan : plan_data) :
  t_usage_breakdown (calculate_totals needs plan)
    = snd (usage_loop (standard_costs needs) (default ∅ (benefit_rules plan))
             (reset_state plan, []) (usage_profile needs)) /\
  t_variable_cost_raw (calculate_totals needs plan)
    = py_sum (values (t_usage_breakdown (calculate_totals needs plan))).
Proof.
  unfold calculate_totals, calculate_usage_cost.
  destruct (usage_loop _ _ _ _) as [st bd]. done.
Qed.

(** X9.  When no rule of the plan has a negative value, no service is
    charged a negative amount: every entry of the usage breakdown and the
    raw variable cost are non-negative, and, the plan's [oop_max] being
    absent or non-negative, the total is at least the premium. *)
Theorem costs_are_nonnegative (needs : user_needs) (plan : plan_data) :
  (forall k r, default ∅ (benefit_rules plan) !! k = Some r -> 0 <= benefit_value r) ->
  let ts := calculate_totals needs plan in
  Forall (fun kv => 0 <= snd kv) (t_usage_breakdown ts) /\
  0 <= t_variable_cost_raw ts /\
  ((forall m, oop_max plan = Some m -> 0 <= m) ->
   t_premium_cost ts <= t_total_annual_cost ts).
Proof.
  intros Hnn. cbv zeta.
  destruct (calculate_totals_breakdown needs plan) as [Hbd Hraw].
  assert (Hall : Forall (fun kv => 0 <= snd kv)
                   (t_usage_breakdown (calculate_totals needs plan))).
  { rewrite Hbd. apply usage_loop_Forall; [| constructor].
    intros item st0 c st1 Hrun.
    pose proof (item_effect_nonneg (standard_costs needs) _ item Hnn) as He.
    destruct (item_effect _ _ item) as [| c0 | m v]; cbn [run_effect] in Hrun.
    - discriminate.
    - by injection Hrun as <- _.
    - destruct He as [Hm Hv].
      pose proof (coinsurance_charge_nonneg m v st0 Hm Hv) as Hc.
      destruct (coinsurance_charge m v st0) as [c1 st2]. by injection Hrun as <- _. }
  assert (H0 : 0 <= t_variable_cost_raw (calculate_totals needs plan)).
  { rewrite Hraw. by apply py_sum_nonneg. }
  split; [exact Hall |]. split; [exact H0 |].
  intros Hoop. revert H0. unfold calculate_totals.
  destruct (calculate_usage_cost needs plan (reset_state plan)) as [st bd].
  cbn [t_variable_cost_raw t_premium_cost t_total_annual_cost]. intros H0.
  unfold apply_oop_cap. destruct (oop_max plan) as [m|] eqn:Em; [| lra].
  specialize (Hoop m eq_refl). destruct (Qltb m (py_sum (values bd))); lra.
Qed.

Lemma costs_are_nonnegative_witness :
  let needs :=
    UserNeeds [("primary_care_visits"%string, 10)]
      (<["primary_care_visit"%string := 200]> ∅) in
  let plan :=
    PlanData (Some "Coinsurance Test Plan"%string) (Some 100) (Some 500) (Some 10000)
      (Some (<["primary_care_visits"%string :=
                 BenefitRule (Some "coinsurance"%string) (Some (1 # 5))]> ∅)) in
  let ts := calculate_totals needs plan in
  Forall (fun kv => 0 <= snd kv) (t_usage_breakdown ts) /\
  0 <= t_variable_cost_raw ts /\
  ((forall m, oop_max plan = Some m -> 0 <= m) ->
   t_premium_cost ts <= t_total_annual_cost ts).
Proof.
  apply (costs_are_nonnegative
           (UserNeeds [("primary_care_visits"%string, 10)]
              (<["primary_care_visit"%string := 200]> ∅))
           (PlanData (Some "Coinsurance Test Plan"%string) (Some 100) (Some 500) (Some 10000)
              (Some (<["primary_care_visits"%string :=
                         BenefitRule (Some "coinsurance"%string) (Some (1 # 5))]> ∅)))).
  cbn [benefit_rules default]. unfold id. intros k r Hk.
  apply lookup_insert_Some in Hk as [[_ <-] | [_ Hk]]; [discriminate |].
  by rewrite lookup_empty in Hk.
Defined.

Lemma first_fallback_candidates_app
    (rules : gmap string benefit_rule) (l1 l2 : list string) :
  first_fallback rules (l1 ++ l2) =
  match first_fallback rules l1 with
  | Some r => Some r
  | None => first_fallback rules l2
  end.
Proof.
  induction l1 as [| k l1 IH]; cbn [app first_fallback]; [done |].
  destruct (rules !! k); done.
Qed.

Lemma find_benefit_rule_candidates
    (usage_key : string) (rules : gmap string benefit_rule) :
  _find_benefit_rule usage_key rules = first_fallback rules (candidate_keys usage_key).
Proof.
  unfold _find_benefit_rule, candidate_keys.
  cbn [app first_fallback].
  destruct (rules !! usage_key); [done |].
  destruct (rules !! replace usage_key "_visits" ""); [done |].
  rewrite first_fallback_candidates_app.
  destruct (first_fallback rules (default [] (therapy_fallbacks !! usage_key)));
    [done |].
  rewrite first_fallback_candidates_app.
  destruct (contains usage_key "_generics"); cbn [first_fallback].
  - destruct (rules !! "generic_drug"%string); [done |].
    destruct (contains usage_key "_specialty"); cbn [first_fallback]; [| done].
    destruct (rules !! "specialty_drug"%string); done.
  - destruct (contains usage_key "_specialty"); cbn [first_fallback]; [| done].
    destruct (rules !! "specialty_drug"%string); done.
Qed.

Lemma first_fallback_None (rules : gmap string benefit_rule) (l : list string) :
  first_fallback rules l = None <-> forall k, k ∈ l -> rules !! k = None.
Proof.
  induction l as [| k l IH]; cbn [first_fallback].
  - split; [intros _ k Hk; by apply elem_of_nil in Hk | done].
  - destruct (rules !! k) eqn:E.
    + split; [done |]. intros H. specialize (H k ltac:(left)). congruence.
    + rewrite IH. split.
      * intros H k' Hk'. apply elem_of_cons in Hk' as [-> | Hk']; [done | by apply H].
      * intros H k' Hk'. apply H. by right.
Qed.

(** The rule found is stored under the first listed key the table has. *)
Lemma first_fallback_Some
    (rules : gmap string benefit_rule) (l : list string) (r : benefit_rule) :
  first_fallback rules l = Some r ->
  exists l1 k l2, l = l1 ++ k :: l2 /\ rules !! k = Some r /\
                  forall k', k' ∈ l1 -> rules !! k' = None.
Proof.
  induction l as [| k l IH]; cbn [first_fallback]; [done |].
  destruct (rules !! k) eqn:E.
  - intros [= <-]. exists [], k, l. repeat split; [done |].
    intros k' Hk'. by apply elem_of_nil in Hk'.
  - intros H. destruct (IH H) as (l1 & k0 & l2 & -> & Hk0 & Hnone).
    exists (k :: l1), k0, l2. repeat split; [done |].
    intros k' Hk'. apply elem_of_cons in Hk' as [-> | Hk']; [done | by apply Hnone].
Qed.

(** X13.  [_find_benefit_rule] is a first-match search over a fixed
    priority list: the usage key itself, the key without '_visits', the
    therapy fallbacks of the key in their listed order, then
    'generic_drug' if the key contains '_generics' and 'specialty_drug'
    if it contains '_specialty'.  A rule it returns is the plan's rule
    under the first of these keys that the table has, so a specific rule
    always wins over a combined category; and it returns [None] exactly
    when the table has none of these keys, in particular on an empty
    table. *)
Theorem find_benefit_rule_first_candidate
    (usage_key : string) (rules : gmap string benefit_rule) :
  (forall r, _find_benefit_rule usage_key rules = Some r ->
     exists l1 k l2, candidate_keys usage_key = l1 ++ k :: l2 /\
                     rules !! k = Some r /\
                     forall k', k' ∈ l1 -> rules !! k' = None) /\
  (_find_benefit_rule usage_key rules = None <->
   forall k, k ∈ candidate_keys usage_key -> rules !! k = None) /\
  _find_benefit_rule usage_key ∅ = None.
Proof.
  rewrite !find_benefit_rule_candidates. split; [| split].
  - intros r. apply first_fallback_Some.
  - apply first_fallback_None.
  - apply first_fallback_None. intros k _. apply lookup_empty.
Qed.

Lemma item_effect_skip
    (costs : gmap string Q) (rules : gmap string benefit_rule) (item : string * Q) :
  item_effect costs rules item = Skip <-> is_costed costs item = false.
Proof.
  destruct item as [usage_key q]. unfold item_effect, is_costed.
  destruct (Qle_bool q 0); [done |].
  destruct (cost_key_and_quantity usage_key q) as [cost_key q']. cbn [fst negb andb].
  destruct (Qle_bool (default 0 (costs !! cost_key)) 0); [done |]. cbn [negb].
  destruct (_find_benefit_rule usage_key rules) as [r|]; [| done].
  destruct (negb (rule_truthy (Some r))); [done |].
  destruct (String.eqb (benefit_type r) "copay"); [done |].
  destruct (String.eqb (benefit_type r) "coinsurance"); done.
Qed.

Lemma run_effect_recorded (e : effect) (st : calc_state) :
  fst (run_effect e st) = None <-> e = Skip.
Proof.
  destruct e as [| c | m v]; cbn [run_effect fst]; [done | done |].
  destruct (coinsurance_charge m v st). done.
Qed.

Lemma usage_loop_keys
    (costs : gmap string Q) (rules : gmap string benefit_rule)
    (items : list (string * Q)) (st : calc_state) (bd : list (string * Q)) :
  NoDup (keys items) ->
  (forall k, k ∈ keys items -> k ∉ keys bd) ->
  keys (snd (usage_loop costs rules (st, bd) items))
    = keys bd ++ keys (List.filter (is_costed costs) items).
Proof.
  revert st bd. induction items as [| [k q] items IH]; intros st bd Hnd Hfresh.
  - unfold usage_loop, keys. cbn. by rewrite app_nil_r.
  - unfold keys in Hnd. cbn [map fst] in Hnd. apply NoDup_cons in Hnd as [Hk Hnd].
    unfold usage_loop. cbn [fold_left List.filter]. rewrite usage_step_effect.
    pose proof (run_effect_recorded (item_effect costs rules (k, q)) st) as Hrec.
    pose proof (item_effect_skip costs rules (k, q)) as Hskip.
    destruct (run_effect (item_effect costs rules (k, q)) st) as [[c|] st'];
      cbn [fst] in Hrec.
    + assert (Hc : is_costed costs (k, q) = true).
      { destruct (is_costed costs (k, q)); [done |].
        destruct Hrec as [_ Hrec]. destruct Hskip as [_ Hskip].
        specialize (Hrec (Hskip eq_refl)). discriminate. }
      rewrite Hc, dict_set_fresh by (apply Hfresh; unfold keys; cbn; left).
      change (fold_left (usage_step costs rules) items (st', bd ++ [(k, c)]))
        with (usage_loop costs rules (st', bd ++ [(k, c)]) items).
      rewrite IH; [| done |].
      * rewrite keys_snoc. unfold keys. cbn [map fst]. by rewrite <- app_assoc.
      * intros k' Hk'. rewrite keys_snoc. intros Hin.
        apply elem_of_app in Hin as [Hin | Hin].
        -- revert Hin. apply Hfresh. unfold keys. cbn. by right.
        -- apply list_elem_of_singleton in Hin. subst k'. by apply Hk.
    + assert (Hc : is_costed costs (k, q) = false).
      { apply Hskip. by apply Hrec. }
      rewrite Hc.
      change (fold_left (usage_step costs rules) items (st', bd))
        with (usage_loop costs rules (st', bd) items).
      apply IH; [done |]. intros k' Hk'. apply Hfresh. unfold keys. cbn. by right.
Qed.

(** X11.  The usage breakdown lists exactly the services of the profile
    that have a positive quantity and a positive market price under the
    engine's cost key, in the order of the profile; a service with
    quantity 0 or without a price is left out, not reported at cost 0,
    while a priced service without a benefit rule is listed. *)
Theorem breakdown_lists_costed_services
    (profile : list (string * Q)) (costs : gmap string Q) (plan : plan_data) :
  NoDup (keys profile) ->
  keys (t_usage_breakdown (calculate_totals (UserNeeds profile costs) plan))
    = keys (List.filter (is_costed costs) profile) /\
  keys (CostResult.usage_breakdown (calculate_total_cost (UserNeeds profile costs) plan))
    = keys (List.filter (is_costed costs) profile).
Proof.
  intros Hnd.
  destruct (calculate_totals_breakdown (UserNeeds profile costs) plan) as [Hbd _].
  assert (H : keys (t_usage_breakdown (calculate_totals (UserNeeds profile costs) plan))
              = keys (List.filter (is_costed costs) profile)).
  { rewrite Hbd. cbn [usage_profile standard_costs].
    rewrite usage_loop_keys; [done | done |].
    intros k _. unfold keys. cbn. apply not_elem_of_nil. }
  split; [exact H |].
  unfold calculate_total_cost. cbn [CostResult.usage_breakdown].
  rewrite <- H. unfold keys. rewrite map_map. apply map_ext. by intros [k v].
Qed.

Lemma breakdown_lists_costed_services_witness :
  let profile := [("primary_care_visits"%string, 5); ("er_visits"%string, 0);
                  ("specialist_visits"%string, 2)] in
  let costs : gmap string Q := <["primary_care_visit"%string := 200]> ∅ in
  let plan := PlanData (Some "Plan"%string) (Some 100) (Some 0) (Some 6000) None in
  keys (t_usage_breakdown (calculate_totals (UserNeeds profile costs) plan))
    = keys (List.filter (is_costed costs) profile) /\
  keys (CostResult.usage_breakdown (calculate_total_cost (UserNeeds profile costs) plan))
    = keys (List.filter (is_costed costs) profile).
Proof.
  apply (breakdown_lists_costed_services
           [("primary_care_visits"%string, 5); ("er_visits"%string, 0);
            ("specialist_visits"%string, 2)]
           (<["primary_care_visit"%string := 200]> ∅)
           (PlanData (Some "Plan"%string) (Some 100) (Some 0) (Some 6000) None)).
  apply (bool_decide_unpack _). vm_compute. reflexivity.
Defined.

Lemma first_fallback_empty (l : list string) : first_fallback ∅ l = None.
Proof. apply first_fallback_None. intros k _. apply lookup_empty. Qed.

Lemma py_sum_zero (bd : list (string * Q)) :
  Forall (fun kv => snd kv == 0) bd -> py_sum (values bd) == 0.
Proof.
  induction 1 as [| kv bd Hkv _ IH].
  - reflexivity.
  - unfold values. cbn [map]. rewrite py_sum_cons. unfold values in IH.
    rewrite IH, Hkv. ring.
Qed.

(** X12.  On a plan without benefit rules (the column absent or an empty
    table) every costed service is recorded at cost 0 and nothing is paid:
    the raw variable cost is 0 and the deductible is untouched, so the
    plan silently costs its premium only. *)
Theorem plan_without_rules_costs_nothing (needs : user_needs) (plan : plan_data) :
  default ∅ (benefit_rules plan) = ∅ ->
  let ts := calculate_totals needs plan in
  Forall (fun kv => snd kv == 0) (t_usage_breakdown ts) /\
  t_variable_cost_raw ts == 0 /\
  t_state ts = reset_state plan.
Proof.
  intros Hempty. cbv zeta.
  destruct (calculate_totals_breakdown needs plan) as [Hbd Hraw].
  assert (Heff : forall item,
            item_effect (standard_costs needs) ∅ item = Skip \/
            item_effect (standard_costs needs) ∅ item = Fixed 0).
  { intros [usage_key q]. unfold item_effect.
    destruct (Qle_bool q 0); [by left |].
    destruct (cost_key_and_quantity usage_key q) as [cost_key q'].
    destruct (Qle_bool (default 0 (standard_costs needs !! cost_key)) 0); [by left |].
    right. by rewrite find_benefit_rule_candidates, first_fallback_empty. }
  assert (Hall : Forall (fun kv => snd kv == 0)
                   (t_usage_breakdown (calculate_totals needs plan))).
  { rewrite Hbd, Hempty.
    apply (usage_loop_Forall (fun c => c == 0)); [| constructor].
    intros item st0 c st1 Hrun.
    destruct (Heff item) as [He | He]; rewrite He in Hrun; cbn [run_effect] in Hrun.
    - discriminate.
    - injection Hrun as <- _. reflexivity. }
  split; [exact Hall |]. split.
  - rewrite Hraw. by apply py_sum_zero.
  - rewrite calculate_totals_state, usage_loop_state, Hempty.
    apply effects_state_unchanged. apply Forall_forall. intros e He.
    apply list_elem_of_In, in_map_iff in He as (item & <- & _).
    destruct (Heff item) as [-> | ->]; done.
Qed.

Lemma plan_without_rules_costs_nothing_witness :
  let needs :=
    UserNeeds [("primary_care_visits"%string, 5)]
      (<["primary_care_visit"%string := 200]> ∅) in
  let plan := PlanData (Some "Plan"%string) (Some 100) (Some 500) (Some 6000) None in
  let ts := calculate_totals needs plan in
  Forall (fun kv => snd kv == 0) (t_usage_breakdown ts) /\
  t_variable_cost_raw ts == 0 /\
  t_state ts = reset_state plan.
Proof.
  apply (plan_without_rules_costs_nothing
           (UserNeeds [("primary_care_visits"%string, 5)]
              (<["primary_care_visit"%string := 200]> ∅))
           (PlanData (Some "Plan"%string) (Some 100) (Some 500) (Some 6000) None)).
  reflexivity.
Defined.

(** ** What the order of the profile changes *)

Lemma dict_set_elem_same (bd : list (string * Q)) (k : string) (c : Q) :
  (k, c) ∈ dict_set bd k c.
Proof.
  induction bd as [| [k' v'] bd IH]; cbn [dict_set]; [left |].
  destruct (String.eqb k' k) eqn:E.
  - apply String.eqb_eq in E. subst k'. left.
  - by right.
Qed.

Lemma dict_set_elem_other (bd : list (string * Q)) (k k' : string) (c c' : Q) :
  k <> k' -> (k, c) ∈ bd -> (k, c) ∈ dict_set bd k' c'.
Proof.
  intros Hne. induction bd as [| [k0 v0] bd IH]; cbn [dict_set]; intros Hin.
  - by apply elem_of_nil in Hin.
  - apply elem_of_cons in Hin as [Heq | Hin].
    + injection Heq as <- <-.
      destruct (String.eqb k k') eqn:E; [| left].
      apply String.eqb_eq in E. congruence.
    + destruct (String.eqb k0 k'); right; [done | by apply IH].
Qed.

Lemma usage_loop_keeps_entry
    (costs : gmap string Q) (rules : gmap string benefit_rule)
    (items : list (string * Q)) (st : calc_state) (bd : list (string * Q))
    (k : string) (c : Q) :
  k ∉ keys items -> (k, c) ∈ bd ->
  (k, c) ∈ snd (usage_loop costs rules (st, bd) items).
Proof.
  revert st bd. induction items as [| [k' q'] items IH]; intros st bd Hk Hin; [done |].
  unfold keys in Hk. cbn [map fst] in Hk. apply not_elem_of_cons in Hk as [Hne Hk].
  unfold usage_loop. cbn [fold_left]. rewrite usage_step_effect.
  destruct (run_effect (item_effect costs rules (k', q')) st) as [[c'|] st'].
  - apply (IH st' (dict_set bd k' c')); [done |]. by apply dict_set_elem_other.
  - by apply (IH st' bd).
Qed.

Lemma usage_loop_fixed_entry
    (costs : gmap string Q) (rules : gmap string benefit_rule)
    (items : list (string * Q)) (st : calc_state) (bd : list (string * Q))
    (k : string) (q c : Q) :
  NoDup (keys items) -> (k, q) ∈ items ->
  item_effect costs rules (k, q) = Fixed c ->
  (k, c) ∈ snd (usage_loop costs rules (st, bd) items).
Proof.
  intros Hnd Hin He. revert st bd.
  induction items as [| [k' q'] items IH]; intros st bd.
  - by apply elem_of_nil in Hin.
  - unfold keys in Hnd. cbn [map fst] in Hnd. apply NoDup_cons in Hnd as [Hk Hnd].
    apply elem_of_cons in Hin as [Heq | Hin].
    + injection Heq as <- <-.
      unfold usage_loop. cbn [fold_left]. rewrite usage_step_effect, He.
      cbn [run_effect].
      apply (usage_loop_keeps_entry costs rules items st (dict_set bd k c));
        [done | apply dict_set_elem_same].
    + unfold usage_loop. cbn [fold_left].
      destruct (usage_step costs rules (st, bd) (k', q')) as [st1 bd1].
      apply (IH Hnd Hin).
Qed.

Lemma item_effect_fixed
    (costs : gmap string Q) (rules : gmap string benefit_rule)
    (usage_key : string) (quantity : Q) :
  is_costed costs (usage_key, quantity) = true ->
  (forall r, _find_benefit_rule usage_key rules = Some r ->
     benefit_type r <> "coinsurance"%string) ->
  exists c, item_effect costs rules (usage_key, quantity) = Fixed c.
Proof.
  unfold is_costed, item_effect. intros Hc Hty.
  destruct (Qle_bool quantity 0); [discriminate |].
  destruct (cost_key_and_quantity usage_key quantity) as [cost_key q']. cbn [fst] in Hc.
  destruct (Qle_bool (default 0 (costs !! cost_key)) 0); [discriminate |].
  destruct (_find_benefit_rule usage_key rules) as [r|]; [| by eexists].
  destruct (negb (rule_truthy (Some r))); [by eexists |].
  destruct (String.eqb (benefit_type r) "copay"); [by eexists |].
  destruct (String.eqb (benefit_type r) "coinsurance") eqn:E; [| by eexists].
  apply String.eqb_eq in E. by destruct (Hty r eq_refl).
Qed.

Lemma filter_costed_perm (costs : gmap string Q) (p1 p2 : list (string * Q)) :
  Permutation p1 p2 ->
  Permutation (List.filter (is_costed costs) p1) (List.filter (is_costed costs) p2).
Proof.
  induction 1 as [| x l1 l2 _ IH | x y l | l1 l2 l3 _ IH1 _ IH2]; cbn [List.filter].
  - done.
  - destruct (is_costed costs x); [by constructor | done].
  - destruct (is_costed costs x), (is_costed costs y); try done. apply perm_swap.
  - by etransitivity.
Qed.

Lemma result_breakdown_keys
    (profile : list (string * Q)) (costs : gmap string Q) (plan : plan_data) :
  NoDup (keys profile) ->
  keys (CostResult.usage_breakdown (calculate_total_cost (UserNeeds profile costs) plan))
    = keys (List.filter (is_costed costs) profile).
Proof.
  intros Hnd.
  destruct (calculate_totals_breakdown (UserNeeds profile costs) plan) as [Hbd _].
  unfold calculate_total_cost. cbn [CostResult.usage_breakdown].
  rewrite Hbd. cbn [usage_profile standard_costs].
  transitivity (keys (snd (usage_loop costs (default ∅ (benefit_rules plan))
                             (reset_state plan, []) profile))).
  { unfold keys. rewrite map_map. apply map_ext. by intros [k v]. }
  rewrite usage_loop_keys; [done | done |].
  intros k _. unfold keys. cbn. apply not_elem_of_nil.
Qed.

Lemma result_breakdown_fixed_entry
    (profile : list (string * Q)) (costs : gmap string Q) (plan : plan_data)
    (k : string) (q c : Q) :
  NoDup (keys profile) -> (k, q) ∈ profile ->
  item_effect costs (default ∅ (benefit_rules plan)) (k, q) = Fixed c ->
  (k, round2 c)
    ∈ CostResult.usage_breakdown (calculate_total_cost (UserNeeds profile costs) plan).
Proof.
  intros Hnd Hin He.
  destruct (calculate_totals_breakdown (UserNeeds profile costs) plan) as [Hbd _].
  unfold calculate_total_cost. cbn [CostResult.usage_breakdown].
  rewrite Hbd. cbn [usage_profile standard_costs].
  apply list_elem_of_In, in_map_iff. exists (k, c). split; [done |].
  apply list_elem_of_In. by eapply usage_loop_fixed_entry.
Qed.

Lemma keys_filter_NoDup (costs : gmap string Q) (profile : list (string * Q)) :
  NoDup (keys profile) -> NoDup (keys (List.filter (is_costed costs) profile)).
Proof.
  unfold keys. induction profile as [| [k q] profile IH]; cbn [map fst List.filter]; [done |].
  intros Hnd. apply NoDup_cons in Hnd as [Hk Hnd].
  destruct (is_costed costs (k, q)); [| by apply IH].
  cbn [map fst]. apply NoDup_cons. split; [| by apply IH].
  intros Hin. apply Hk. apply list_elem_of_In, in_map_iff in Hin as ([k' q'] & Heq & Hin).
  cbn in Heq. subst k'. apply filter_In in Hin as [Hin _].
  apply list_elem_of_In, in_map_iff. exists (k, q'). done.
Qed.

(** C5 (order sensitivity), without the order-invariant total.  For two
    usage profiles with the same service/quantity pairs in different
    insertion orders, run against the same price table and plan, the
    usage breakdowns list the same services, each once, and every listed
    service whose resolved rule is not a coinsurance rule (a copay, an
    unknown type, or no rule at all) has the same cost in both.  Only
    the costs of coinsurance services depend on the order, and with them
    the total. *)
Theorem order_changes_coinsurance_costs_only
    (profile1 profile2 : list (string * Q)) (costs : gmap string Q) (plan : plan_data) :
  Permutation profile1 profile2 ->
  NoDup (keys profile1) ->
  let res1 := calculate_total_cost (UserNeeds profile1 costs) plan in
  let res2 := calculate_total_cost (UserNeeds profile2 costs) plan in
  NoDup (keys (CostResult.usage_breakdown res1)) /\
  Permutation (keys (CostResult.usage_breakdown res1))
    (keys (CostResult.usage_breakdown res2)) /\
  (forall usage_key quantity,
     (usage_key, quantity) ∈ profile1 ->
     is_costed costs (usage_key, quantity) = true ->
     (forall r, _find_benefit_rule usage_key (default ∅ (benefit_rules plan)) = Some r ->
        benefit_type r <> "coinsurance"%string) ->
     exists cost,
       (usage_key, cost) ∈ CostResult.usage_breakdown res1 /\
       (usage_key, cost) ∈ CostResult.usage_breakdown res2).
Proof.
  intros Hperm Hnd1. cbv zeta.
  assert (Hnd2 : NoDup (keys profile2)).
  { unfold keys in *.
    assert (Hk : map fst profile1 ≡ₚ map fst profile2) by (by apply Permutation_map).
    by rewrite <- Hk. }
  rewrite !result_breakdown_keys by done.
  split; [by apply keys_filter_NoDup |]. split.
  - unfold keys. apply Permutation_map. by apply filter_costed_perm.
  - intros usage_key quantity Hin Hc Hty.
    destruct (item_effect_fixed costs _ usage_key quantity Hc Hty) as [c He].
    exists (round2 c). split.
    + by apply (result_breakdown_fixed_entry profile1 costs plan usage_key quantity).
    + apply (result_breakdown_fixed_entry profile2 costs plan usage_key quantity);
        [done | by rewrite <- Hperm | done].
Qed.

Lemma order_changes_coinsurance_costs_only_witness :
  let costs : gmap string Q :=
    <["primary_care_visit"%string := 200]> (<["specialist_visit"%string := 400]> ∅) in
  let plan :=
    PlanData (Some "Plan"%string) (Some 100) (Some 500) (Some 10000)
      (Some (<["primary_care_visits"%string :=
                 BenefitRule (Some "copay"%string) (Some 20)]>
            (<["specialist_visits"%string :=
                 BenefitRule (Some "coinsurance"%string) (Some (1 # 5))]> ∅))) in
  let profile1 := [("primary_care_visits"%string, 5); ("specialist_visits"%string, 2)] in
  let profile2 := [("specialist_visits"%string, 2); ("primary_care_visits"%string, 5)] in
  let res1 := calculate_total_cost (UserNeeds profile1 costs) plan in
  let res2 := calculate_total_cost (UserNeeds profile2 costs) plan in
  NoDup (keys (CostResult.usage_breakdown res1)) /\
  Permutation (keys (CostResult.usage_breakdown res1))
    (keys (CostResult.usage_breakdown res2)) /\
  (forall usage_key quantity,
     (usage_key, quantity) ∈ profile1 ->
     is_costed costs (usage_key, quantity) = true ->
     (forall r, _find_benefit_rule usage_key (default ∅ (benefit_rules plan)) = Some r ->
        benefit_type r <> "coinsurance"%string) ->
     exists cost,
       (usage_key, cost) ∈ CostResult.usage_breakdown res1 /\
       (usage_key, cost) ∈ CostResult.usage_breakdown res2).
Proof.
  apply (order_changes_coinsurance_costs_only
           [("primary_care_visits"%string, 5); ("specialist_visits"%string, 2)]
           [("specialist_visits"%string, 2); ("primary_care_visits"%string, 5)]
           (<["primary_care_visit"%string := 200]> (<["specialist_visit"%string := 400]> ∅))
           (PlanData (Some "Plan"%string) (Some 100) (Some 500) (Some 10000)
              (Some (<["primary_care_visits"%string :=
                         BenefitRule (Some "copay"%string) (Some 20)]>
                    (<["specialist_visits"%string :=
                         BenefitRule (Some "coinsurance"%string) (Some (1 # 5))]> ∅))))).
  - apply perm_swap.
  - apply (bool_decide_unpack _). vm_compute. reflexivity.
Defined.

(** In that witness the copay service costs 100 in both orders. *)
Example copay_cost_same_in_both_orders :
  let costs : gmap string Q :=
    <["primary_care_visit"%string := 200]> (<["specialist_visit"%string := 400]> ∅) in
  let plan :=
    PlanData (Some "Plan"%string) (Some 100) (Some 500) (Some 10000)
      (Some (<["primary_care_visits"%string :=
                 BenefitRule (Some "copay"%string) (Some 20)]>
            (<["specialist_visits"%string :=
                 BenefitRule (Some "coinsurance"%string) (Some (1 # 5))]> ∅))) in
  let profile1 := [("primary_care_visits"%string, 5); ("specialist_visits"%string, 2)] in
  let profile2 := [("specialist_visits"%string, 2); ("primary_care_visits"%string, 5)] in
  CostResult.usage_breakdown (calculate_total_cost (UserNeeds profile1 costs) plan)
    = [("primary_care_visits"%string, 10000 # 100); ("specialist_visits"%string, 56000 # 100)] /\
  CostResult.usage_breakdown (calculate_total_cost (UserNeeds profile2 costs) plan)
    = [("specialist_visits"%string, 56000 # 100); ("primary_care_visits"%string, 10000 # 100)].
Proof. vm_compute. split; reflexivity. Qed.

(** ** Cost keys of visit services *)

Lemma rstrip_s_app_keep (t u : string) :
  rstrip_s u <> EmptyString ->
  rstrip_s (String.append t u) = String.append t (rstrip_s u).
Proof.
  intros Hne. induction t as [| c t IH]; [done |].
  change (String.append (String c t) u) with (String c (String.append t u)).
  cbn [rstrip_s]. rewrite IH.
  change (String.append (String c t) (rstrip_s u))
    with (String c (String.append t (rstrip_s u))).
  destruct (String.append t (rstrip_s u)) eqn:E; [| done].
  destruct t; [| discriminate]. by destruct Hne.
Qed.

Lemma cost_key_visits (base : string) (q : Q) :
  cost_key_and_quantity (String.append base "_visits") q
    = (String.append base "_visit", q).
Proof.
  unfold cost_key_and_quantity.
  rewrite (rstrip_s_app_keep base "_visits") by discriminate.
  change (rstrip_s "_visits") with "_visit"%string.
  rewrite (endswith_exclusive (String.append base "_visit") "_visit" "_monthly");
    [done | done | done | apply endswith_app].
Qed.

Lemma startswith_app (p rest : string) : startswith (String.append p rest) p = true.
Proof.
  unfold startswith. induction p as [| a p IH]; [by destruct rest |].
  change (String.append (String a p) rest) with (String a (String.append p rest)).
  cbn [String.prefix]. destruct (ascii_dec a a); [exact IH | congruence].
Qed.

(** An occurrence of '_visits' cannot start in [s] and end in a
    '_visits' that follows it. *)
Lemma visits_no_straddle (s : string) :
  startswith (String.append s "_visits") "_visits" = true ->
  s = EmptyString \/ startswith s "_visits" = true.
Proof.
  intros H. apply startswith_inv in H as [rest H].
  destruct s as [| c0 s]; [by left |]. right.
  do 6 (destruct s as [| ? s]; [discriminate H |]).
  injection H as -> -> -> -> -> -> -> _. apply (startswith_app "_visits" s).
Qed.

Lemma replace_visits_clean (base : string) :
  contains base "_visits" = false ->
  replace (String.append base "_visits") "_visits" "" = base.
Proof.
  induction base as [| c base IH]; intros Hc; [reflexivity |].
  change (startswith (String c base) "_visits" || contains base "_visits" = false) in Hc.
  apply orb_false_iff in Hc as [Hs Hc].
  change (String.append (String c base) "_visits")
    with (String c (String.append base "_visits")).
  unfold replace. cbn [replace_from].
  destruct (startswith (String c (String.append base "_visits")) "_visits") eqn:E.
  - destruct (visits_no_straddle (String c base) E) as [H | H]; [discriminate | congruence].
  - f_equal. by apply IH.
Qed.

(** X14.  For a usage key ending in '_visits' the engine looks the price
    up under the key with the final 's' removed, and costs the quantity
    as it is (visits are not annualized); and when '_visits' occurs
    nowhere else in the key, that is also the cost key
    [map_usage_to_standard_cost_key] gives, so the engine finds the
    prices [validate_usage_cost_pairing] checks for. *)
Theorem engine_visits_cost_key (base : string) (q : Q) :
  cost_key_and_quantity (String.append base "_visits") q
    = (String.append base "_visit", q) /\
  (contains base "_visits" = false ->
   map_usage_to_standard_cost_key (String.append base "_visits")
     = String.append base "_visit").
Proof.
  split; [apply cost_key_visits |].
  intros Hc. unfold map_usage_to_standard_cost_key.
  rewrite (endswith_exclusive (String.append base "_visits") "_visits" "_monthly");
    [| done | done | apply endswith_app].
  rewrite endswith_app. by rewrite (replace_visits_clean base Hc).
Qed.

(** ** The batch *)

Lemma plan_results_elem (plans_df : list plan_data) (needs : user_needs) (row : result_row) :
  row ∈ plan_results plans_df needs <->
  exists plan, plan ∈ plans_df /\ has_required_fields plan = true /\
               row = ResultRow plan (calculate_total_cost needs plan).
Proof.
  unfold plan_results. rewrite list_elem_of_omap. split.
  - intros (plan & Hin & H). exists plan.
    destruct (has_required_fields plan); [| discriminate].
    injection H as <-. done.
  - intros (plan & Hin & Hreq & ->). exists plan. by rewrite Hreq.
Qed.

Lemma plan_results_length (plans_df : list plan_data) (needs : user_needs) :
  length (plan_results plans_df needs) = length (List.filter has_required_fields plans_df).
Proof.
  unfold plan_results. induction plans_df as [| plan plans_df IH]; [done |].
  cbn [omap list_omap List.filter].
  destruct (has_required_fields plan); cbn [length]; by rewrite IH.
Qed.

Lemma calculate_all_plans_length
    (sort_values : list result_row -> list result_row)
    (plans_df : list plan_data) (needs : user_needs) :
  (forall rows, Permutation rows (sort_values rows)) ->
  length (calculate_all_plans sort_values plans_df needs)
    = length (plan_results plans_df needs).
Proof.
  intros Hperm.
  pose proof (calculate_all_plans_rows sort_values Hperm plans_df needs) as H.
  apply Permutation_length in H. rewrite H. by rewrite List.length_map.
Qed.

(** X15.  Whatever order the sort leaves them in, the batch output
    holds no row for an input plan that lacks one of its four required
    fields (name, premium, deductible, out-of-pocket maximum) and at
    most one row per plan that has them: it is no longer than the list
    of such plans, and the row at position [i] (from 0) has rank
    [i + 1] and carries an input plan with its required fields and the
    result of [calculate_total_cost] on that plan. *)
Theorem batch_keeps_plans_with_required_fields
    (sort_values : list result_row -> list result_row)
    (plans_df : list plan_data) (needs : user_needs) :
  (forall rows, Permutation rows (sort_values rows)) ->
  let out := calculate_all_plans sort_values plans_df needs in
  (length out <= length (List.filter has_required_fields plans_df))%nat /\
  (forall i k row, out !! i = Some (k, row) ->
     k = Z.of_nat (S i) /\
     row_plan row ∈ plans_df /\ has_required_fields (row_plan row) = true /\
     row_cost row = calculate_total_cost needs (row_plan row)).
Proof.
  intros Hperm. cbv zeta.
  pose proof (calculate_all_plans_rows sort_values Hperm plans_df needs) as Hrows.
  split.
  - by rewrite calculate_all_plans_length, plan_results_length.
  - intros i k row Hi.
    destruct (calculate_all_plans_lookup sort_values plans_df needs i k row Hi)
      as [Hk _].
    split; [exact Hk |].
    assert (Hrow : row ∈ plan_results plans_df needs).
    { rewrite Hrows. apply list_elem_of_In, in_map_iff. exists (k, row).
      split; [done |]. apply list_elem_of_In. by eapply list_elem_of_lookup_2. }
    apply plan_results_elem in Hrow as (plan & Hp & Hreq & ->). done.
Qed.

Lemma batch_keeps_plans_with_required_fields_witness :
  let rules : gmap string benefit_rule :=
    <["primary_care_visits"%string := BenefitRule (Some "copay"%string) (Some 20)]> ∅ in
  let needs :=
    UserNeeds [("primary_care_visits"%string, 5)] (<["primary_care_visit"%string := 200]> ∅) in
  let plans_df :=
    [PlanData (Some "Plan A"%string) (Some 150) (Some 0) (Some 6000) (Some rules);
     PlanData (Some "Plan B"%string) (Some 100) None (Some 6000) (Some rules)] in
  let out := calculate_all_plans merge_sort_values plans_df needs in
  (length out <= length (List.filter has_required_fields plans_df))%nat /\
  (forall i k row, out !! i = Some (k, row) ->
     k = Z.of_nat (S i) /\
     row_plan row ∈ plans_df /\ has_required_fields (row_plan row) = true /\
     row_cost row = calculate_total_cost needs (row_plan row)).
Proof.
  apply (batch_keeps_plans_with_required_fields merge_sort_values).
  apply merge_sort_values_perm.
Defined.

(** X16.  When no input plan has all four required fields (in particular
    on an empty input) the batch output is empty, whatever the sort: no
    row, and no rank column. *)
Theorem batch_without_valid_plan_is_empty
    (sort_values : list result_row -> list result_row)
    (plans_df : list plan_data) (needs : user_needs) :
  (forall plan, plan ∈ plans_df -> has_required_fields plan = false) ->
  calculate_all_plans sort_values plans_df needs = [].
Proof.
  intros Hnone. unfold calculate_all_plans.
  destruct (plan_results plans_df needs) as [| r0 rows] eqn:E; [done |].
  assert (Hin : r0 ∈ plan_results plans_df needs) by (rewrite E; left).
  apply plan_results_elem in Hin as (plan & Hp & Hreq & _).
  rewrite (Hnone plan Hp) in Hreq. discriminate.
Qed.

Lemma batch_without_valid_plan_is_empty_witness :
  calculate_all_plans merge_sort_values
    [PlanData (Some "Plan B"%string) (Some 100) None (Some 6000) None]
    (UserNeeds [("primary_care_visits"%string, 5)] (<["primary_care_visit"%string := 200]> ∅))
  = [].
Proof.
  apply (batch_without_valid_plan_is_empty merge_sort_values).
  intros plan Hp. apply list_elem_of_singleton in Hp. by subst plan.
Defined.

(** * Further properties of the service type mapper *)

(** ** Normal forms *)

Lemma lower_ascii_not_upper (c : ascii) : is_upper (lower_ascii c) = false.
Proof. destruct c as [[] [] [] [] [] [] [] []]; reflexivity. Qed.

Lemma key_char_spec (c : ascii) :
  is_key_char c = (isalnum c || Ascii.eqb c "_") && negb (is_upper c).
Proof. destruct c as [[] [] [] [] [] [] [] []]; reflexivity. Qed.

Lemma key_char_lower (c : ascii) : is_key_char c = true -> lower_ascii c = c.
Proof. destruct c as [[] [] [] [] [] [] [] []]; (reflexivity || discriminate). Qed.

Lemma all_chars_lower (s : string) :
  all_chars (fun c => negb (is_upper c)) (lower s) = true.
Proof.
  induction s as [| c s IH]; [done |]. cbn [lower all_chars].
  by rewrite lower_ascii_not_upper, IH.
Qed.

Lemma all_chars_replace_char (p : ascii -> bool) (a b : ascii) (s : string) :
  p b = true -> all_chars p s = true ->
  all_chars p (replace s (String a EmptyString) (String b EmptyString)) = true.
Proof.
  intros Hb. induction s as [| c s IH]; [done |].
  rewrite replace_char_cons. cbn [all_chars]. intros H.
  apply andb_true_iff in H as [Hc Hs]. rewrite (IH Hs).
  destruct (Ascii.eqb a c); by rewrite ?Hb, ?Hc.
Qed.

Lemma replace_char_absent (p : ascii -> bool) (a b : ascii) (s : string) :
  p a = false -> all_chars p s = true ->
  replace s (String a EmptyString) (String b EmptyString) = s.
Proof.
  intros Ha. induction s as [| c s IH]; [done |].
  rewrite replace_char_cons. cbn [all_chars]. intros H.
  apply andb_true_iff in H as [Hc Hs]. rewrite (IH Hs).
  destruct (Ascii.eqb a c) eqn:E; [| done].
  apply Ascii.eqb_eq in E. subst c. congruence.
Qed.

Lemma all_chars_filter (p keep : ascii -> bool) (s : string) :
  all_chars p s = true ->
  all_chars (fun c => keep c && p c) (filter_chars keep s) = true.
Proof.
  induction s as [| c s IH]; [done |]. cbn [all_chars filter_chars]. intros H.
  apply andb_true_iff in H as [Hc Hs].
  destruct (keep c) eqn:Ek; [| by apply IH].
  cbn [all_chars]. by rewrite Ek, Hc, (IH Hs).
Qed.

Lemma filter_chars_all (keep : ascii -> bool) (s : string) :
  all_chars keep s = true -> filter_chars keep s = s.
Proof.
  induction s as [| c s IH]; [done |]. cbn [all_chars filter_chars]. intros H.
  apply andb_true_iff in H as [Hc Hs]. by rewrite Hc, (IH Hs).
Qed.

Lemma all_chars_ext (p1 p2 : ascii -> bool) (s : string) :
  (forall c, p1 c = true -> p2 c = true) ->
  all_chars p1 s = true -> all_chars p2 s = true.
Proof.
  intros Hp. induction s as [| c s IH]; [done |]. cbn [all_chars]. intros H.
  apply andb_true_iff in H as [Hc Hs]. by rewrite (Hp c Hc), (IH Hs).
Qed.

Lemma lower_key_chars (s : string) : all_chars is_key_char s = true -> lower s = s.
Proof.
  induction s as [| c s IH]; [done |]. cbn [all_chars lower]. intros H.
  apply andb_true_iff in H as [Hc Hs]. by rewrite (key_char_lower c Hc), (IH Hs).
Qed.

Lemma normalize_key_chars (benefit_key : string) :
  all_chars is_key_char (normalize_benefit_key benefit_key) = true.
Proof.
  unfold normalize_benefit_key.
  eapply all_chars_ext;
    [| apply (all_chars_filter (fun c => negb (is_upper c))
                (fun c => isalnum c || Ascii.eqb c "_"))].
  - intros c H. by rewrite key_char_spec.
  - apply all_chars_replace_char; [done |].
    apply all_chars_replace_char; [done |]. apply all_chars_lower.
Qed.

Lemma normalize_fixes_key_chars (s : string) :
  all_chars is_key_char s = true -> normalize_benefit_key s = s.
Proof.
  intros H. unfold normalize_benefit_key. rewrite (lower_key_chars s H).
  rewrite (replace_char_absent is_key_char " " "_" s) by done.
  rewrite (replace_char_absent is_key_char "-" "_" s) by done.
  apply filter_chars_all. revert H. apply all_chars_ext.
  intros c Hc. rewrite key_char_spec in Hc. by apply andb_true_iff in Hc as [-> _].
Qed.

(** X18.  [normalize_benefit_key] computes a normal form: its result
    consists of lowercase letters, digits and underscores only, a key
    made of such characters is returned unchanged, and normalizing twice
    is the same as normalizing once. *)
Theorem normalize_benefit_key_normal_form (benefit_key : string) :
  all_chars is_key_char (normalize_benefit_key benefit_key) = true /\
  (all_chars is_key_char benefit_key = true ->
   normalize_benefit_key benefit_key = benefit_key) /\
  normalize_benefit_key (normalize_benefit_key benefit_key)
    = normalize_benefit_key benefit_key.
Proof.
  split; [apply normalize_key_chars |]. split; [apply normalize_fixes_key_chars |].
  apply normalize_fixes_key_chars, normalize_key_chars.
Qed.

(** ** Matching a benefit *)

Lemma first_alternative_Some
    (plan_keys alts : list string) (k : string) :
  first_alternative (normalized_benefits plan_keys) alts = Some k ->
  exists alt, alt ∈ alts /\
    last_with_normal_form (normalize_benefit_key alt) plan_keys = Some k.
Proof.
  induction alts as [| alt alts IH]; cbn [first_alternative]; [done |].
  rewrite normalized_benefits_lookup.
  destruct (last_with_normal_form (normalize_benefit_key alt) plan_keys) as [k0|] eqn:E.
  - intros [= <-]. exists alt. split; [left | done].
  - intros H. destruct (IH H) as (alt' & Hin & Hk). exists alt'. split; [by right | done].
Qed.

(** X19.  [find_matching_benefit] only ever returns a key of the plan's
    table: one whose normal form is that of the usage type, or, failing
    that and with fallbacks enabled, that of one of the alternatives
    mapped to the usage type.  Without fallbacks only the first case
    occurs, and on an empty table the answer is [None]. *)
Theorem find_matching_benefit_sound
    (usage_type : string) (plan_keys : list string) (use_fallback : bool) (k : string) :
  find_matching_benefit usage_type plan_keys use_fallback = Some k ->
  k ∈ plan_keys /\
  (normalize_benefit_key k = normalize_benefit_key usage_type \/
   use_fallback = true /\
   exists alts alt, ALL_SERVICE_MAPPINGS !! usage_type = Some alts /\ alt ∈ alts /\
                    normalize_benefit_key k = normalize_benefit_key alt).
Proof.
  unfold find_matching_benefit. rewrite normalized_benefits_lookup.
  destruct (last_with_normal_form (normalize_benefit_key usage_type) plan_keys)
    as [k0|] eqn:E.
  - intros [= <-]. apply last_with_normal_form_elem in E as [Hin Hn].
    split; [done | by left].
  - destruct use_fallback; [| done].
    destruct (ALL_SERVICE_MAPPINGS !! usage_type) as [alts|] eqn:Ea; [| done].
    intros H. apply first_alternative_Some in H as (alt & Hin & Hk).
    apply last_with_normal_form_elem in Hk as [Hk Hn].
    split; [done |]. right. split; [done |]. by exists alts, alt.
Qed.

Lemma find_matching_benefit_sound_witness :
  "Therapy Services"%string ∈ ["ER Visits"%string; "Therapy Services"%string] /\
  (normalize_benefit_key "Therapy Services" = normalize_benefit_key "speech_therapy_visits" \/
   true = true /\
   exists alts alt,
     ALL_SERVICE_MAPPINGS !! "speech_therapy_visits"%string = Some alts /\ alt ∈ alts /\
     normalize_benefit_key "Therapy Services" = normalize_benefit_key alt).
Proof.
  apply (find_matching_benefit_sound "speech_therapy_visits"
           ["ER Visits"%string; "Therapy Services"%string] true "Therapy Services").
  vm_compute. reflexivity.
Defined.

(** X20.  Fallbacks never override an exact match: whatever
    [find_matching_benefit] finds with fallbacks disabled it also returns
    with fallbacks enabled, and with fallbacks disabled it finds a key
    exactly when some plan key has the normal form of the usage type. *)
Theorem fallback_extends_exact_match
    (usage_type : string) (plan_keys : list string) :
  (forall k, find_matching_benefit usage_type plan_keys false = Some k ->
     find_matching_benefit usage_type plan_keys true = Some k) /\
  (is_Some (find_matching_benefit usage_type plan_keys false) <->
   exists k, k ∈ plan_keys /\
             normalize_benefit_key k = normalize_benefit_key usage_type).
Proof.
  unfold find_matching_benefit. rewrite normalized_benefits_lookup.
  destruct (last_with_normal_form (normalize_benefit_key usage_type) plan_keys)
    as [k0|] eqn:E.
  - split; [done |]. split; [| by eexists].
    intros _. exists k0. by apply last_with_normal_form_elem in E.
  - split; [done |]. split; [intros [k Hk]; discriminate |].
    intros (k & Hin & Hn).
    destruct (last_with_normal_form_is_Some _ k plan_keys Hin Hn) as [k' Hk'].
    congruence.
Qed.

(** X21.  [get_therapy_benefit_for_usage] answers [None] for a usage type
    that is not a therapy type, only ever returns a key of the plan's
    table, and for a therapy type agrees with [find_matching_benefit]
    (fallbacks enabled) whenever no plan key has the normal form of the
    usage type itself. *)
Theorem therapy_benefit_agrees_with_matching
    (usage_type : string) (plan_keys : list string) :
  (THERAPY_BENEFIT_MAPPING !! usage_type = None ->
     get_therapy_benefit_for_usage usage_type plan_keys = None) /\
  (forall k, get_therapy_benefit_for_usage usage_type plan_keys = Some k ->
     k ∈ plan_keys) /\
  (is_Some (THERAPY_BENEFIT_MAPPING !! usage_type) ->
   last_with_normal_form (normalize_benefit_key usage_type) plan_keys = None ->
   find_matching_benefit usage_type plan_keys true
     = get_therapy_benefit_for_usage usage_type plan_keys).
Proof.
  unfold get_therapy_benefit_for_usage. split; [| split].
  - by intros ->.
  - intros k. destruct (THERAPY_BENEFIT_MAPPING !! usage_type) as [alts|]; [| done].
    intros H. apply first_alternative_Some in H as (alt & _ & Hk).
    by apply last_with_normal_form_elem in Hk as [Hk _].
  - intros [alts Ha] Hnone. unfold find_matching_benefit.
    rewrite normalized_benefits_lookup, Hnone, Ha.
    unfold ALL_SERVICE_MAPPINGS.
    by rewrite (lookup_union_Some_l _ _ _ _ Ha).
Qed.

(** ** Cost keys and their validation *)

(** X22.  [map_usage_to_standard_cost_key] goes by the suffix of the
    usage key: a key ending in '_monthly' gives a key ending in '_cost',
    one ending in '_visits' a key ending in '_visit', one ending in
    '_surgeries' a key ending in '_surgery', and any other key is
    returned as it is. *)
Theorem mapper_cost_key_by_suffix (usage_key : string) :
  (endswith usage_key "_monthly" = true ->
     endswith (map_usage_to_standard_cost_key usage_key) "_cost" = true) /\
  (endswith usage_key "_visits" = true ->
     endswith (map_usage_to_standard_cost_key usage_key) "_visit" = true) /\
  (endswith usage_key "_surgeries" = true ->
     endswith (map_usage_to_standard_cost_key usage_key) "_surgery" = true) /\
  (endswith usage_key "_monthly" = false -> endswith usage_key "_visits" = false ->
   endswith usage_key "_surgeries" = false ->
     map_usage_to_standard_cost_key usage_key = usage_key).
Proof.
  split; [apply mapper_monthly_cost |]. split; [| split; [apply mapper_surgeries_surgery |]].
  - intros H. unfold map_usage_to_standard_cost_key.
    rewrite (endswith_exclusive usage_key "_visits" "_monthly") by done.
    rewrite H. apply endswith_app.
  - intros H1 H2 H3. unfold map_usage_to_standard_cost_key. by rewrite H1, H2, H3.
Qed.

Lemma validate_messages {A}
    (usage_keys : list string) (standard_costs : gmap string A) (msg : string) :
  msg ∈ validate_usage_cost_pairing usage_keys standard_costs <->
  exists usage_key, usage_key ∈ usage_keys /\
    standard_costs !! map_usage_to_standard_cost_key usage_key = None /\
    msg = missing_cost_message usage_key (map_usage_to_standard_cost_key usage_key).
Proof.
  induction usage_keys as [| k usage_keys IH]; cbn [validate_usage_cost_pairing].
  - split; [intros H; by apply elem_of_nil in H |].
    intros (k & H & _). by apply elem_of_nil in H.
  - destruct (standard_costs !! map_usage_to_standard_cost_key k) eqn:E.
    + rewrite IH. split.
      * intros (k' & Hin & Hnone & ->). exists k'. split; [by right | done].
      * intros (k' & Hin & Hnone & ->).
        apply elem_of_cons in Hin as [-> | Hin]; [congruence |]. by exists k'.
    + rewrite elem_of_cons, IH. split.
      * intros [-> | (k' & Hin & Hnone & ->)].
        -- exists k. split; [left | done].
        -- exists k'. split; [by right | done].
      * intros (k' & Hin & Hnone & ->).
        apply elem_of_cons in Hin as [-> | Hin]; [by left |]. right. by exists k'.
Qed.

(** X23.  [validate_usage_cost_pairing] reports exactly the usage keys
    whose mapped cost key is missing from [standard_costs], each with its
    own message; it returns the empty list if and only if every usage
    key's mapped cost key is present. *)
Theorem validation_reports_missing_keys {A}
    (usage_keys : list string) (standard_costs : gmap string A) :
  (forall msg, msg ∈ validate_usage_cost_pairing usage_keys standard_costs <->
     exists usage_key, usage_key ∈ usage_keys /\
       standard_costs !! map_usage_to_standard_cost_key usage_key = None /\
       msg = missing_cost_message usage_key (map_usage_to_standard_cost_key usage_key)) /\
  (validate_usage_cost_pairing usage_keys standard_costs = [] <->
   forall usage_key, usage_key ∈ usage_keys ->
     is_Some (standard_costs !! map_usage_to_standard_cost_key usage_key)).
Proof.
  split; [apply validate_messages |]. split.
  - intros Hnil k Hk.
    destruct (standard_costs !! map_usage_to_standard_cost_key k) eqn:E; [by eexists |].
    assert (Hin : missing_cost_message k (map_usage_to_standard_cost_key k)
                    ∈ validate_usage_cost_pairing usage_keys standard_costs).
    { apply validate_messages. by exists k. }
    rewrite Hnil in Hin. by apply elem_of_nil in Hin.
  - intros Hall.
    destruct (validate_usage_cost_pairing usage_keys standard_costs) as [| msg l] eqn:E;
      [done |].
    assert (Hin : msg ∈ validate_usage_cost_pairing usage_keys standard_costs)
      by (rewrite E; left).
    apply validate_messages in Hin as (k & Hk & Hnone & _).
    destruct (Hall k Hk) as [v Hv]. congruence.
Qed.

(** * Further properties of one service *)

Lemma apply_cost_nonneg (r : benefit_rule) (p q : Q) (st : calc_state) :
  0 <= benefit_value r -> 0 <= fst (apply_benefit_rule (Some r) p q st).
Proof.
  intros Hv. unfold apply_benefit_rule.
  destruct (negb (rule_truthy (Some r))); cbn [orb fst]; [lra |].
  destruct (Qle_bool q 0) eqn:Eq; cbn [orb fst]; [lra |].
  destruct (Qle_bool p 0) eqn:Ep; cbn [fst]; [lra |]. qtests.
  destruct (String.eqb (benefit_type r) "copay"); cbn [fst].
  { apply Qmult_le_0_compat; lra. }
  destruct (String.eqb (benefit_type r) "coinsurance"); cbn [fst]; [| lra].
  assert (Hm : 0 < p * q) by (by apply Qmult_lt_0_compat).
  apply (coinsurance_charge_nonneg (p * q) (benefit_value r) st Hm Hv).
Qed.

(** X3.  For a rule whose value is not negative, a larger quantity of
    the same service, from the same deductible state, never costs less. *)
Theorem cost_monotone_in_quantity
    (r : benefit_rule) (p q1 q2 : Q) (st : calc_state) :
  0 <= benefit_value r -> q1 <= q2 ->
  fst (apply_benefit_rule (Some r) p q1 st) <= fst (apply_benefit_rule (Some r) p q2 st).
Proof.
  intros Hv Hq.
  pose proof (apply_cost_nonneg r p q2 st Hv) as Hnn.
  revert Hnn. unfold apply_benefit_rule.
  destruct (negb (rule_truthy (Some r))); cbn [orb fst]; [lra |].
  destruct (Qle_bool q1 0) eqn:Eq1; cbn [orb]; [done |].
  destruct (Qle_bool q2 0) eqn:Eq2; cbn [orb]; [qtests; lra |].
  destruct (Qle_bool p 0) eqn:Ep; cbn [fst]; [lra |]. qtests. intros _.
  destruct (String.eqb (benefit_type r) "copay"); cbn [fst].
  { assert (0 <= benefit_value r * (q2 - q1)) by (apply Qmult_le_0_compat; lra). lra. }
  destruct (String.eqb (benefit_type r) "coinsurance"); cbn [fst]; [| lra].
  set (v := benefit_value r) in *. set (d := deductible_remaining st).
  assert (Hm : 0 <= p * (q2 - q1)) by (apply Qmult_le_0_compat; lra).
  assert (Hm1 : 0 < p * q1) by (by apply Qmult_lt_0_compat).
  assert (Hmv : 0 <= (p * q2 - p * q1) * v) by (apply Qmult_le_0_compat; lra).
  destruct (Qltb 0 d) eqn:Ed; cbn [fst]; qtests; [| lra].
  destruct (py_min_cases (p * q1) d) as [[H1 ->] | [H1 ->]];
    destruct (py_min_cases (p * q2) d) as [[H2 ->] | [H2 ->]]; try lra.
  assert (0 <= (p * q2 - d) * v) by (apply Qmult_le_0_compat; lra). lra.
Qed.

Lemma cost_monotone_in_quantity_witness :
  let r := BenefitRule (Some "coinsurance"%string) (Some (1 # 5)) in
  let st := CalcState 500 0 in
  fst (apply_benefit_rule (Some r) 200 2 st) <= fst (apply_benefit_rule (Some r) 200 10 st).
Proof.
  apply (cost_monotone_in_quantity (BenefitRule (Some "coinsurance"%string) (Some (1 # 5)))
           200 2 10 (CalcState 500 0)); discriminate.
Defined.

